(** * GPUMon: a shallow embedding of [gpumon.go]

    The program samples [nvidia-smi -q -x], converts the textual memory and
    utilization fields of every GPU to integers, renders them as InfluxDB
    line-protocol points and posts them over HTTP, forever, every 5 seconds.

    Go strings are byte sequences: they are modelled by [string] (a list of
    [ascii], one per byte).  [int64] values are modelled by [Z] with the
    two's-complement wrap-around written out ([wrap64]). *)

From Stdlib Require Import ZArith List String Ascii Bool Lia.
From Stdlib Require Import Numbers.DecimalString Numbers.DecimalZ.
Import ListNotations.

Open Scope string_scope.
Open Scope Z_scope.

(** ** Machine integers *)

(** The value of the 64-bit pattern of [z] read as a signed integer. *)
Definition wrap64 (z : Z) : Z := (z + 2 ^ 63) mod 2 ^ 64 - 2 ^ 63.

(** Go's [*] on [int64]. *)
Definition mul64 (a b : Z) : Z := wrap64 (a * b).

(** Go's unary [-] on [int64]. *)
Definition neg64 (a : Z) : Z := wrap64 (- a).

Definition byte_val (c : ascii) : Z := Z.of_N (N_of_ascii c).

(** ** The parts of Go's standard library the program calls *)

(** Package [strings]. *)
Module strings.

(** [strings.HasPrefix]: [len(s) >= len(prefix) && s[:len(prefix)] == prefix]. *)
Definition HasPrefix (s prefix : string) : bool :=
  (length prefix <=? length s)%nat
  && String.eqb (substring 0 (length prefix) s) prefix.

(** [strings.HasSuffix]:
    [len(s) >= len(suffix) && s[len(s)-len(suffix):] == suffix]. *)
Definition HasSuffix (s suffix : string) : bool :=
  (length suffix <=? length s)%nat
  && String.eqb (substring (length s - length suffix) (length suffix) s) suffix.

(** The copying loop of [strings.Replace] when every occurrence is
    replaced: scan [s] from the left; at an occurrence of [old] write [new]
    and jump over it ([skip] counts the bytes of the occurrence still to
    jump over), otherwise copy the byte. *)
Fixpoint replace_from (old new s : string) (skip : nat) : string :=
  match s with
  | EmptyString => EmptyString
  | String c s' =>
      match skip with
      | S k => replace_from old new s' k
      | O =>
          if HasPrefix s old
          then new ++ replace_from old new s' (length old - 1)
          else String c (replace_from old new s' 0)
      end
  end.

(** [strings.Replace(s, old, new, -1)]: every non-overlapping occurrence of
    [old], leftmost first, is replaced by [new].  Both call sites pass
    [n = -1] and a non-empty [old]; Go's special treatment of an empty
    [old] (insertion at every rune boundary) is outside the model, where
    [s] is returned as it is. *)
Definition Replace (s old new : string) : string :=
  if String.eqb old new then s
  else match old with
       | EmptyString => s
       | String _ _ => replace_from old new s 0
       end.

End strings.

(** Package [strconv]. *)
Module strconv.

(** [*NumError.Err]: the two errors [ParseInt] can return. *)
Inductive NumError : Set := ErrSyntax | ErrRange.

Definition maxUint64 : Z := 2 ^ 64 - 1.

(** [lower(c)]: [c | ('x' - 'X')]. *)
Definition lower (c : Z) : Z := Z.lor c 32.

(** The value of byte [c] as a digit, as the [switch] of [ParseUint]
    computes it (the underscore case needs base 0 and cannot occur). *)
Definition digit_val (c : Z) : option Z :=
  if (48 <=? c) && (c <=? 57) then Some (c - 48)
  else if (97 <=? lower c) && (lower c <=? 122) then Some (lower c - 97 + 10)
  else None.

(** The loop of [ParseUint(s, 10, 64)] over the bytes of [s], with the
    accumulator [n : uint64].  [cutoff] is [maxUint64/10 + 1], the least
    [n] for which [n*10] overflows. *)
Fixpoint parse_digits (s : string) (n : Z) : Z * option NumError :=
  match s with
  | EmptyString => (n, None)
  | String c s' =>
      match digit_val (byte_val c) with
      | None => (0, Some ErrSyntax)
      | Some d =>
          if d >=? 10 then (0, Some ErrSyntax)
          else if n >=? maxUint64 / 10 + 1 then (maxUint64, Some ErrRange)
          else
            let n10 := n * 10 in
            let n1 := (n10 + d) mod 2 ^ 64 in
            if (n1 <? n10) || (n1 >? maxUint64) then (maxUint64, Some ErrRange)
            else parse_digits s' n1
      end
  end.

(** [strconv.ParseUint(s, 10, 64)]. *)
Definition ParseUint (s : string) : Z * option NumError :=
  match s with
  | EmptyString => (0, Some ErrSyntax)
  | String _ _ => parse_digits s 0
  end.

(** [strconv.ParseInt(s, 10, 64)]: an optional sign, then [ParseUint]; a
    syntax error gives 0, a value out of range gives the nearest [int64]. *)
Definition ParseInt (s : string) : Z * option NumError :=
  match s with
  | EmptyString => (0, Some ErrSyntax)
  | String c rest =>
      let neg := Ascii.eqb c "-" in
      let body := if Ascii.eqb c "+" then rest
                  else if Ascii.eqb c "-" then rest else s in
      let (un, err) := ParseUint body in
      match err with
      | Some ErrSyntax => (0, Some ErrSyntax)
      | _ =>
          let cutoff := 2 ^ 63 in
          if negb neg && (un >=? cutoff) then (cutoff - 1, Some ErrRange)
          else if neg && (un >? cutoff) then (- cutoff, Some ErrRange)
          else
            let n := wrap64 un in
            (if neg then neg64 n else n, None)
      end
  end.

End strconv.

(** Package [net/url], query-component mode. *)
Module url.

Definition between (lo hi : ascii) (c : ascii) : bool :=
  (byte_val lo <=? byte_val c) && (byte_val c <=? byte_val hi).

(** [shouldEscape(c, encodeQueryComponent)]: letters, digits and the four
    marks [-_.~] stay; the reserved characters and everything else are
    escaped. *)
Definition shouldEscape (c : ascii) : bool :=
  if between "a" "z" c || between "A" "Z" c || between "0" "9" c then false
  else if Ascii.eqb c "-" || Ascii.eqb c "_" || Ascii.eqb c "."
          || Ascii.eqb c "~" then false
  else true.

(** [upperhex[i]], with [upperhex = "0123456789ABCDEF"]. *)
Definition upperhex (i : Z) : ascii :=
  match String.get (Z.to_nat i) "0123456789ABCDEF" with
  | Some a => a
  | None => "0"%char
  end.

(** The writing loop of [escape(s, encodeQueryComponent)]: a space becomes
    [+], a byte to escape becomes [%XX] with [XX = upperhex[c>>4],
    upperhex[c&15]].  (The first loop of [escape] only counts, to return
    [s] itself when nothing changes.) *)
Fixpoint escape (s : string) : string :=
  match s with
  | EmptyString => EmptyString
  | String c s' =>
      if Ascii.eqb c " " then String "+" (escape s')
      else if shouldEscape c then
        String "%" (String (upperhex (Z.shiftr (byte_val c) 4))
                   (String (upperhex (Z.land (byte_val c) 15)) (escape s')))
      else String c (escape s')
  end.

(** [url.QueryEscape]. *)
Definition QueryEscape (s : string) : string := escape s.

Definition ishex (c : ascii) : bool :=
  between "0" "9" c || between "a" "f" c || between "A" "F" c.

Definition unhex (c : ascii) : Z :=
  if between "0" "9" c then byte_val c - 48
  else if between "a" "f" c then byte_val c - 97 + 10
  else if between "A" "F" c then byte_val c - 65 + 10
  else 0.

(** First loop of [unescape]: every [%] is followed by two hex digits. *)
Fixpoint well_escaped (s : string) : bool :=
  match s with
  | EmptyString => true
  | String c s' =>
      if Ascii.eqb c "%" then
        match s' with
        | String a (String b s'') => ishex a && ishex b && well_escaped s''
        | _ => false
        end
      else well_escaped s'
  end.

(** Second loop of [unescape]: [%XX] becomes the byte
    [unhex(X)<<4 | unhex(X)], [+] becomes a space. *)
Fixpoint unescape_bytes (s : string) : string :=
  match s with
  | EmptyString => EmptyString
  | String c s' =>
      if Ascii.eqb c "%" then
        match s' with
        | String a (String b s'') =>
            String (ascii_of_N (Z.to_N (Z.lor (Z.shiftl (unhex a) 4) (unhex b))))
                   (unescape_bytes s'')
        | _ => EmptyString
        end
      else if Ascii.eqb c "+" then String " " (unescape_bytes s')
      else String c (unescape_bytes s')
  end.

(** [url.QueryUnescape], the inverse the Go library gives for
    [QueryEscape]; [None] stands for its [EscapeError]. *)
Definition QueryUnescape (s : string) : option string :=
  if well_escaped s then Some (unescape_bytes s) else None.

End url.

(** Package [fmt]: the verb [%d] on an integer. *)
Definition fmt_d (z : Z) : string := NilEmpty.string_of_int (Z.to_int z).

(** ** The two conversions of [gpumon.go] *)

(** [memUsage2Int]: convert a string like [11519 MiB] to bytes.  The error
    of [ParseInt] is dropped ([megaInt, _ := ...]). *)
Definition memUsage2Int (usage : string) : Z :=
  if strings.HasSuffix usage " MiB" then
    let mega := strings.Replace usage " MiB" "" in
    let megaInt := fst (strconv.ParseInt mega) in
    mul64 (mul64 megaInt 1024) 1024
  else 0.

(** [utilization2Float]: convert a string like [83 %] to its number (an
    [int64], whatever the name says). *)
Definition utilization2Float (utilization : string) : Z :=
  if strings.HasSuffix utilization " %" then
    let ut := strings.Replace utilization " %" "" in
    let utInt := fst (strconv.ParseInt ut) in
    utInt
  else 0.

(** ** The data model of [gpumon.go] *)

(** [GPUUtilization] stores GPU resource usage summary. *)
Record GPUUtilization : Set := {
  GPUUtil : string;
  MemoryUtil : string;
  EncoderUtil : string;
  DecoderUtil : string
}.

(** [MemoryUsage] shows total, used and free memory space. *)
Record MemoryUsage : Set := {
  Total : string;
  Used : string;
  Free : string
}.

(** [GPUInfo] shows per GPU card spec and status; [MinorNumber] is an
    [int32]. *)
Record GPUInfo : Set := {
  ID : string;
  ProductName : string;
  ProductBrand : string;
  UUID : string;
  MinorNumber : Z;
  FBMemoryUsage : MemoryUsage;
  Bar1MemoryUsage : MemoryUsage;
  Utilization : GPUUtilization
}.

(** [NvidiaSmiLog] describes the [nvidia-smi] output. *)
Record NvidiaSmiLog : Set := {
  DriverVersion : string;
  AttachedGPUs : string;
  GPUInfoList : list GPUInfo
}.

(** ** Encoding *)

Definition newline : string := String "010" EmptyString.

(** [appendPoint] on a [bytes.Buffer], whose contents are the string
    [output]: a newline first when the buffer is not empty, then
    [Sprintf("%s,%s value=%d %d", mesurement, tags, value, timestamp)]. *)
Definition appendPoint (output : string) (mesurement tags : string)
    (value timestamp : Z) : string :=
  let output :=
    if (0 <? length output)%nat then output ++ newline else output in
  output ++ (mesurement ++ "," ++ tags ++ " value=" ++ fmt_d value ++ " "
             ++ fmt_d timestamp).

(** [Sprintf("hostname=%s,gpuid=%s,product=%s,minor=%d", ...)] in
    [postToInfluxdb]. *)
Definition tags_of (hostname : string) (gpustat : GPUInfo) : string :=
  "hostname=" ++ hostname ++ ",gpuid=" ++ ID gpustat ++ ",product="
  ++ url.QueryEscape (ProductName gpustat) ++ ",minor="
  ++ fmt_d (MinorNumber gpustat).

(** The body of the [range] loop of [postToInfluxdb] up to the call of
    [postURL]: the buffer is reset, then the nine points of the device are
    appended. *)
Definition fill_postbuffer (postbuffer : string) (hostname : string)
    (timestamp : Z) (gpustat : GPUInfo) : string :=
  let postbuffer := EmptyString (* postbuffer.Reset() *) in
  let tags := tags_of hostname gpustat in
  let postbuffer := appendPoint postbuffer "fbmemory/total" tags
    (memUsage2Int (Total (FBMemoryUsage gpustat))) timestamp in
  let postbuffer := appendPoint postbuffer "fbmemory/used" tags
    (memUsage2Int (Used (FBMemoryUsage gpustat))) timestamp in
  let postbuffer := appendPoint postbuffer "fbmemory/free" tags
    (memUsage2Int (Free (FBMemoryUsage gpustat))) timestamp in
  let postbuffer := appendPoint postbuffer "bar1memory/total" tags
    (memUsage2Int (Total (Bar1MemoryUsage gpustat))) timestamp in
  let postbuffer := appendPoint postbuffer "bar1memory/used" tags
    (memUsage2Int (Used (Bar1MemoryUsage gpustat))) timestamp in
  let postbuffer := appendPoint postbuffer "bar1memory/free" tags
    (memUsage2Int (Free (Bar1MemoryUsage gpustat))) timestamp in
  let postbuffer := appendPoint postbuffer "gpu" tags
    (utilization2Float (GPUUtil (Utilization gpustat))) timestamp in
  let postbuffer := appendPoint postbuffer "gpu/encoder" tags
    (utilization2Float (EncoderUtil (Utilization gpustat))) timestamp in
  let postbuffer := appendPoint postbuffer "gpu/decoder" tags
    (utilization2Float (DecoderUtil (Utilization gpustat))) timestamp in
  postbuffer.

(** ** The outside world

    The program talks to the operating system, to [nvidia-smi] and to the
    InfluxDB server.  What they answer is an input of the model ([Env]); what
    the program asks and logs is its output (a list of [Event]s, oldest
    first). *)

(** The text of a Go [error]. *)
Definition error : Set := string.

(** An [*http.Response] as the program uses it: the status code, and what
    [ioutil.ReadAll(resp.Body)] returns (the bytes read and its error). *)
Record Response : Set := {
  StatusCode : Z;
  Body : string;
  ReadErr : option error
}.

(** What [http.Get] and [http.Post] return: [(nil, err)] when the request
    fails, [(resp, nil)] when the server answers (with any status), and both
    non-nil when the redirect policy gives up. *)
Inductive HttpResult : Set :=
| Failed (err : error)
| GaveUp (resp : Response) (err : error)
| Answered (resp : Response).

Definition http_err (r : HttpResult) : option error :=
  match r with
  | Failed err | GaveUp _ err => Some err
  | Answered _ => None
  end.

Definition http_resp (r : HttpResult) : option Response :=
  match r with
  | Failed _ => None
  | GaveUp resp _ | Answered resp => Some resp
  end.

Inductive Severity : Set := INFO | ERROR.

Inductive Event : Set :=
| Exec (name : string) (args : list string)
| HttpGet (url : string)
| HttpPost (url contentType body : string)
| Log (severity : Severity) (msg : string)
| Sleep (seconds : Z).

Record Env : Type := {
  (** [os.Hostname()], its error dropped *)
  env_hostname : string;
  (** [os.Getenv] *)
  env_getenv : string -> string;
  (** [time.Now().UnixNano()] at the k-th reading of the clock *)
  env_now : nat -> Z;
  (** [exec.Command(...).Output()] at the k-th run: the standard output, or
      the error (not found, non-zero exit) *)
  env_exec : nat -> string + error;
  (** [xml.Unmarshal(out, &NvidiaSmiLog{})] *)
  env_unmarshal : string -> NvidiaSmiLog + error;
  (** the outcome of the k-th HTTP request of the process *)
  env_http : nat -> HttpResult
}.

(** How much of the environment has been consumed. *)
Record World : Set := {
  clock_reads : nat;
  runs : nat;
  requests : nat
}.

Definition boot : World := {| clock_reads := 0; runs := 0; requests := 0 |}.

(** A call either returns or panics (no [recover] anywhere: a panic ends
    the process). *)
Inductive Result (A : Type) : Type :=
| Returned (a : A)
| Panicked.
Arguments Returned {A} a.
Arguments Panicked {A}.

(** A run: the events it emitted, the world it left, how it ended. *)
Record Run (A : Type) : Type := {
  trace : list Event;
  world : World;
  result : Result A
}.
Arguments trace {A} r.
Arguments world {A} r.
Arguments result {A} r.

Definition M (A : Type) : Type := Env -> World -> Run A.

Definition ret {A} (a : A) : M A :=
  fun _ w => {| trace := []; world := w; result := Returned a |}.

Definition bind {A B} (m : M A) (f : A -> M B) : M B :=
  fun e w =>
    let r := m e w in
    match result r with
    | Returned a =>
        let r' := f a e (world r) in
        {| trace := trace r ++ trace r'; world := world r';
           result := result r' |}
    | Panicked =>
        {| trace := trace r; world := world r; result := Panicked |}
    end.

Declare Scope io_scope.
Delimit Scope io_scope with io.
Notation "x <- m ;; k" := (bind m (fun x => k))
  (at level 61, m at next level, right associativity) : io_scope.
Notation "m ;; k" := (bind m (fun _ => k))
  (at level 61, right associativity) : io_scope.
Open Scope io_scope.

Definition emit (ev : Event) : M unit :=
  fun _ w => {| trace := [ev]; world := w; result := Returned tt |}.

(** A nil pointer dereference. *)
Definition panic {A} : M A :=
  fun _ w => {| trace := []; world := w; result := Panicked |}.

Definition glog_Infof (msg : string) : M unit := emit (Log INFO msg).
Definition glog_Errorf (msg : string) : M unit := emit (Log ERROR msg).

Definition os_Hostname : M string :=
  fun e w => {| trace := []; world := w; result := Returned (env_hostname e) |}.

Definition os_Getenv (key : string) : M string :=
  fun e w =>
    {| trace := []; world := w; result := Returned (env_getenv e key) |}.

Definition time_Now_UnixNano : M Z :=
  fun e w =>
    {| trace := [];
       world := {| clock_reads := S (clock_reads w); runs := runs w;
                   requests := requests w |};
       result := Returned (env_now e (clock_reads w)) |}.

Definition time_Sleep (seconds : Z) : M unit := emit (Sleep seconds).

Definition exec_Output (name : string) (args : list string)
  : M (string + error) :=
  fun e w =>
    {| trace := [Exec name args];
       world := {| clock_reads := clock_reads w; runs := S (runs w);
                   requests := requests w |};
       result := Returned (env_exec e (runs w)) |}.

Definition xml_Unmarshal (out : string) : M (NvidiaSmiLog + error) :=
  fun e w =>
    {| trace := []; world := w; result := Returned (env_unmarshal e out) |}.

Definition http_request (ev : Event) : M HttpResult :=
  fun e w =>
    {| trace := [ev];
       world := {| clock_reads := clock_reads w; runs := runs w;
                   requests := S (requests w) |};
       result := Returned (env_http e (requests w)) |}.

Definition http_Get (url : string) : M HttpResult := http_request (HttpGet url).

Definition http_Post (url contentType body : string) : M HttpResult :=
  http_request (HttpPost url contentType body).

(** ** Sampling and publishing *)

(** [getGPUInfo]: the pointer is [nil] ([None]) exactly when the error is
    not. *)
Definition getGPUInfo : M (option NvidiaSmiLog * option error) :=
  out <- exec_Output "nvidia-smi" ["-q"; "-x"] ;;
  match out with
  | inr err => ret (None, Some err)
  | inl out =>
      nvidiasmilog <- xml_Unmarshal out ;;
      match nvidiasmilog with
      | inr err => ret (None, Some err)
      | inl nvidiasmilog => ret (Some nvidiasmilog, None)
      end
  end.

(** [getURL]: [(-1, "")] after a failed request or a failed read of the
    body. *)
Definition getURL (url : string) : M (Z * string) :=
  r <- http_Get url ;;
  match r with
  | Failed err | GaveUp _ err =>
      glog_Errorf ("url get error: " ++ err) ;;
      ret (-1, "")
  | Answered resp =>
      match ReadErr resp with
      | Some err =>
          glog_Errorf ("parse url response error: " ++ err) ;;
          ret (-1, "")
      | None =>
          glog_Infof ("got response " ++ Body resp) ;;
          ret (StatusCode resp, Body resp)
      end
  end.

(** [postURL]: after logging the error of [http.Post] the function goes on
    to [resp.Body], which dereferences [resp]. *)
Definition postURL (url plainpost : string) : M unit :=
  glog_Infof ("posting: " ++ plainpost) ;;
  r <- http_Post url "plain/text" plainpost ;;
  match http_err r with
  | Some err => glog_Errorf ("post error: " ++ err)
  | None => ret tt
  end ;;
  match http_resp r with
  | None => panic
  | Some resp =>
      match ReadErr resp with
      | Some err => glog_Errorf ("error read response " ++ err)
      | None => ret tt
      end ;;
      glog_Infof ("response status[" ++ fmt_d (StatusCode resp) ++ "] "
                  ++ Body resp)
  end.

(** The [range] loop of [postToInfluxdb] over [xmlinfo.GPUInfoList]; the
    buffer is shared by the iterations. *)
Fixpoint post_each (gpus : list GPUInfo) (postbuffer : string)
    (writeurl hostname : string) (timestamp : Z) : M unit :=
  match gpus with
  | [] => ret tt
  | gpustat :: gpus' =>
      let postbuffer := fill_postbuffer postbuffer hostname timestamp gpustat in
      postURL writeurl postbuffer ;;
      post_each gpus' postbuffer writeurl hostname timestamp
  end.

(** [postToInfluxdb]; [xmlinfo] is a pointer, [None] when [nil]. *)
Definition postToInfluxdb (xmlinfo : option NvidiaSmiLog)
    (baseurl hostname : string) (timestamp : Z) : M unit :=
  let postbuffer := EmptyString in
  let url := baseurl ++ "query?q=CREATE%20DATABASE%20GPU" in
  cb <- getURL url ;;
  let (code, body) := cb : Z * string in
  (if negb (code =? 200)
   then glog_Errorf ("create database faild, code " ++ fmt_d code ++ ", "
                     ++ body)
   else ret tt) ;;
  let writeurl := baseurl ++ "write?db=GPU" in
  match xmlinfo with
  | None => panic (* xmlinfo.GPUInfoList on a nil pointer *)
  | Some xmlinfo =>
      post_each (GPUInfoList xmlinfo) postbuffer writeurl hostname timestamp
  end.

(** One iteration of the [for] loop of [main]. *)
Definition cycle (influxdbAddr hostname : string) : M unit :=
  timestamp <- time_Now_UnixNano ;;
  ie <- getGPUInfo ;;
  let (infos, err) := ie : option NvidiaSmiLog * option error in
  match err with
  | Some err => glog_Errorf ("get GPU info error: " ++ err)
  | None => ret tt
  end ;;
  postToInfluxdb infos influxdbAddr hostname timestamp ;;
  time_Sleep 5.

(** The [for] loop of [main], cut after [cycles] iterations: [Returned]
    means that the process is still running then. *)
Fixpoint main_loop (cycles : nat) (influxdbAddr hostname : string) : M unit :=
  match cycles with
  | O => ret tt
  | S cycles' =>
      cycle influxdbAddr hostname ;;
      main_loop cycles' influxdbAddr hostname
  end.

(** [main]; [flag.Parse()] only reads the logging flags of [glog]. *)
Definition main (cycles : nat) : M unit :=
  hostname <- os_Hostname ;;
  influxdbAddr <- os_Getenv "INFLUXDB_ADDR" ;;
  main_loop cycles influxdbAddr hostname.


(** ** Vocabulary of the specification *)

(** *** Integers written in decimal *)

Definition is_digit (c : ascii) : bool :=
  (48 <=? byte_val c) && (byte_val c <=? 57).

Fixpoint all_digits (s : string) : bool :=
  match s with
  | EmptyString => true
  | String c s' => is_digit c && all_digits s'
  end.

Definition is_negative (s : string) : bool :=
  match s with
  | String c _ => Ascii.eqb c "-"
  | EmptyString => false
  end.

(** [s] without its sign, when it has one. *)
Definition unsigned_part (s : string) : string :=
  match s with
  | String c rest => if Ascii.eqb c "+" || Ascii.eqb c "-" then rest else s
  | EmptyString => EmptyString
  end.

(** "An integer": an optional sign and at least one decimal digit. *)
Definition int_literal (s : string) : bool :=
  match unsigned_part s with
  | EmptyString => false
  | String _ _ as body => all_digits body
  end.

(** The number a string of digits denotes, after the digits [acc]. *)
Fixpoint digits_value (s : string) (acc : Z) : Z :=
  match s with
  | EmptyString => acc
  | String c s' => digits_value s' (acc * 10 + (byte_val c - 48))
  end.

(** The integer an [int_literal] denotes. *)
Definition literal_value (s : string) : Z :=
  let v := digits_value (unsigned_part s) 0 in
  if is_negative s then - v else v.

(** The digits [s] starts with. *)
Fixpoint digit_run (s : string) : string :=
  match s with
  | EmptyString => EmptyString
  | String c s' => if is_digit c then String c (digit_run s') else EmptyString
  end.

(** The byte [o] occurs in [s]. *)
Fixpoint has_byte (o : ascii) (s : string) : bool :=
  match s with
  | EmptyString => false
  | String c s' => Ascii.eqb c o || has_byte o s'
  end.

(** [old] (not empty) occurs somewhere in [s]. *)
Fixpoint occurs (old s : string) : bool :=
  match s with
  | EmptyString => false
  | String _ s' => strings.HasPrefix s old || occurs old s'
  end.

(** The nearest [int64]. *)
Definition clamp64 (z : Z) : Z := Z.max (- 2 ^ 63) (Z.min (2 ^ 63 - 1) z).

(** *** Points *)

(** The tag set of a point. *)
Record Tags : Set := {
  tag_hostname : string;
  tag_gpuid : string;
  tag_product : string;
  tag_minor : Z
}.

(** A point: measurement name, tag set, integer value, timestamp. *)
Record Point : Set := {
  measurement : string;
  tags : Tags;
  value : Z;
  timestamp : Z
}.

Definition render_tags (t : Tags) : string :=
  "hostname=" ++ tag_hostname t ++ ",gpuid=" ++ tag_gpuid t ++ ",product="
  ++ tag_product t ++ ",minor=" ++ fmt_d (tag_minor t).

(** A point in the line protocol:
    [measurement,tag1=val1,... value=<integer> <timestamp>]. *)
Definition render_point (p : Point) : string :=
  measurement p ++ "," ++ render_tags (tags p) ++ " value=" ++ fmt_d (value p)
  ++ " " ++ fmt_d (timestamp p).

(** A payload: one point per line. *)
Definition render_payload (ps : list Point) : string :=
  String.concat newline (map render_point ps).

(** The nine metrics of a device sample, with their measurement names. *)
Definition device_metrics (g : GPUInfo) : list (string * Z) :=
  [ ("fbmemory/total", memUsage2Int (Total (FBMemoryUsage g)));
    ("fbmemory/used", memUsage2Int (Used (FBMemoryUsage g)));
    ("fbmemory/free", memUsage2Int (Free (FBMemoryUsage g)));
    ("bar1memory/total", memUsage2Int (Total (Bar1MemoryUsage g)));
    ("bar1memory/used", memUsage2Int (Used (Bar1MemoryUsage g)));
    ("bar1memory/free", memUsage2Int (Free (Bar1MemoryUsage g)));
    ("gpu", utilization2Float (GPUUtil (Utilization g)));
    ("gpu/encoder", utilization2Float (EncoderUtil (Utilization g)));
    ("gpu/decoder", utilization2Float (DecoderUtil (Utilization g))) ].

(** The points of a device sample in a cycle of host [hostname] stamped
    [ts]. *)
Definition device_points (hostname : string) (ts : Z) (g : GPUInfo)
  : list Point :=
  map (fun mv =>
         {| measurement := fst mv;
            tags := {| tag_hostname := hostname;
                       tag_gpuid := ID g;
                       tag_product := url.QueryEscape (ProductName g);
                       tag_minor := MinorNumber g |};
            value := snd mv;
            timestamp := ts |})
      (device_metrics g).

(** Every byte of [s] satisfies [p]. *)
Fixpoint all_bytes (p : ascii -> bool) (s : string) : bool :=
  match s with
  | EmptyString => true
  | String c s' => p c && all_bytes p s'
  end.

(** The bytes an escaped query component is made of: the unreserved ones,
    [%] (before two hex digits) and [+] (for a space). *)
Definition escaped_byte (c : ascii) : bool :=
  negb (url.shouldEscape c) || Ascii.eqb c "%" || Ascii.eqb c "+".

(** *** Percent-encoding, in the words of the specification *)




(** *** Reports *)

Definition forget_memory_util_gpu (g : GPUInfo) : GPUInfo :=
  {| ID := ID g; ProductName := ProductName g;
     ProductBrand := ProductBrand g; UUID := UUID g;
     MinorNumber := MinorNumber g; FBMemoryUsage := FBMemoryUsage g;
     Bar1MemoryUsage := Bar1MemoryUsage g;
     Utilization :=
       {| GPUUtil := GPUUtil (Utilization g); MemoryUtil := "";
          EncoderUtil := EncoderUtil (Utilization g);
          DecoderUtil := DecoderUtil (Utilization g) |} |}.

(** A report with the [memory_util] field of every device blanked: two
    reports are identical except for that field when blanking it makes them
    equal. *)
Definition forget_memory_util (r : NvidiaSmiLog) : NvidiaSmiLog :=
  {| DriverVersion := DriverVersion r; AttachedGPUs := AttachedGPUs r;
     GPUInfoList := map forget_memory_util_gpu (GPUInfoList r) |}.

(** *** Traces *)

Definition is_log (ev : Event) : bool :=
  match ev with Log _ _ => true | _ => false end.

Definition is_post (ev : Event) : bool :=
  match ev with HttpPost _ _ _ => true | _ => false end.

Definition is_exec (ev : Event) : bool :=
  match ev with Exec _ _ => true | _ => false end.

(** The write requests of a trace. *)
Definition posts (t : list Event) : list Event := filter is_post t.

(** The runs of the diagnostic command in a trace. *)
Definition samplings (t : list Event) : list Event := filter is_exec t.

(** The world after one more HTTP request. *)
Definition sent (w : World) : World :=
  {| clock_reads := clock_reads w; runs := runs w;
     requests := S (requests w) |}.

(** The database-creation call succeeded: answered, body read, status 200. *)
Definition created (r : HttpResult) : bool :=
  match r with
  | Answered resp =>
      match ReadErr resp with
      | None => StatusCode resp =? 200
      | Some _ => false
      end
  | _ => false
  end.

(** The next [n] HTTP requests after the first [skip] ones all get a
    response. *)
Definition answered (e : Env) (w : World) (skip n : nat) : Prop :=
  forall k, (k < n)%nat ->
    http_resp (env_http e (requests w + skip + k)) <> None.

(** *** Sample inputs *)

Definition tesla_k80 : GPUInfo :=
  {| ID := "0"; ProductName := "Tesla K80"; ProductBrand := "Tesla";
     UUID := "GPU-6a3b0c21";
     MinorNumber := 0;
     FBMemoryUsage :=
       {| Total := "11519 MiB"; Used := "0 MiB"; Free := "11519 MiB" |};
     Bar1MemoryUsage :=
       {| Total := "11519 MiB"; Used := "0 MiB"; Free := "11519 MiB" |};
     Utilization :=
       {| GPUUtil := "0 %"; MemoryUtil := "0 %"; EncoderUtil := "0 %";
          DecoderUtil := "0 %" |} |}.

Definition tesla_k80_busy : GPUInfo :=
  {| ID := "0"; ProductName := "Tesla K80"; ProductBrand := "Tesla";
     UUID := "GPU-6a3b0c21";
     MinorNumber := 0;
     FBMemoryUsage :=
       {| Total := "11519 MiB"; Used := "0 MiB"; Free := "11519 MiB" |};
     Bar1MemoryUsage :=
       {| Total := "11519 MiB"; Used := "0 MiB"; Free := "11519 MiB" |};
     Utilization :=
       {| GPUUtil := "0 %"; MemoryUtil := "97 %"; EncoderUtil := "0 %";
          DecoderUtil := "0 %" |} |}.

Definition second_k80 : GPUInfo :=
  {| ID := "1"; ProductName := "Tesla K80"; ProductBrand := "Tesla";
     UUID := "GPU-91d7e4f0";
     MinorNumber := 1;
     FBMemoryUsage :=
       {| Total := "11519 MiB"; Used := "2048 MiB"; Free := "9471 MiB" |};
     Bar1MemoryUsage :=
       {| Total := "16384 MiB"; Used := "2 MiB"; Free := "16382 MiB" |};
     Utilization :=
       {| GPUUtil := "83 %"; MemoryUtil := "41 %"; EncoderUtil := "0 %";
          DecoderUtil := "100 %" |} |}.

(** A device whose report carries a negative size and a utilization above
    100. *)
Definition odd_gpu : GPUInfo :=
  {| ID := "0"; ProductName := "Tesla K80"; ProductBrand := "Tesla";
     UUID := "GPU-6a3b0c21";
     MinorNumber := 0;
     FBMemoryUsage :=
       {| Total := "-5 MiB"; Used := "0 MiB"; Free := "0 MiB" |};
     Bar1MemoryUsage :=
       {| Total := "0 MiB"; Used := "0 MiB"; Free := "0 MiB" |};
     Utilization :=
       {| GPUUtil := "150 %"; MemoryUtil := "0 %"; EncoderUtil := "0 %";
          DecoderUtil := "0 %" |} |}.

Definition report_of (gpus : list GPUInfo) : NvidiaSmiLog :=
  {| DriverVersion := "375.26"; AttachedGPUs := fmt_d (Z.of_nat (List.length gpus));
     GPUInfoList := gpus |}.

Definition no_content : HttpResult :=
  Answered {| StatusCode := 204; Body := ""; ReadErr := None |}.

Definition http_ok : HttpResult :=
  Answered {| StatusCode := 200; Body := "{}"; ReadErr := None |}.

Definition server_error : HttpResult :=
  Answered {| StatusCode := 500; Body := "internal error"; ReadErr := None |}.

(** A host on which everything works: [nvidia-smi] reports [gpus], the
    server answers 200 to the creation call (the first request of a cycle)
    and 204 to the writes. *)
Definition healthy (gpus : list GPUInfo) : Env :=
  {| env_hostname := "node1";
     env_getenv := fun _ => "http://influxdb:8086/";
     env_now := fun k => 1500000000000000000 + 5000000000 * Z.of_nat k;
     env_exec := fun _ => inl "<nvidia_smi_log/>";
     env_unmarshal := fun _ => inl (report_of gpus);
     env_http := fun k =>
       if (Nat.modulo k (S (List.length gpus)) =? 0)%nat then http_ok
       else no_content |}.

(** The same host when [nvidia-smi] cannot be run. *)
Definition without_nvidia_smi : Env :=
  {| env_hostname := "node1";
     env_getenv := fun _ => "http://influxdb:8086/";
     env_now := fun k => 1500000000000000000 + 5000000000 * Z.of_nat k;
     env_exec := fun _ =>
       inr "exec: nvidia-smi: executable file not found in $PATH";
     env_unmarshal := fun _ => inl (report_of []);
     env_http := fun _ => http_ok |}.

(** The same host when the server refuses connections. *)
Definition server_down (gpus : list GPUInfo) : Env :=
  {| env_hostname := "node1";
     env_getenv := fun _ => "http://influxdb:8086/";
     env_now := fun k => 1500000000000000000 + 5000000000 * Z.of_nat k;
     env_exec := fun _ => inl "<nvidia_smi_log/>";
     env_unmarshal := fun _ => inl (report_of gpus);
     env_http := fun _ => Failed "dial tcp: connection refused" |}.

(** The same host when the server answers 500 to the creation call and 204
    to the writes. *)
Definition creation_refused (gpus : list GPUInfo) : Env :=
  {| env_hostname := "node1";
     env_getenv := fun _ => "http://influxdb:8086/";
     env_now := fun k => 1500000000000000000 + 5000000000 * Z.of_nat k;
     env_exec := fun _ => inl "<nvidia_smi_log/>";
     env_unmarshal := fun _ => inl (report_of gpus);
     env_http := fun k =>
       if (Nat.modulo k (S (List.length gpus)) =? 0)%nat then server_error
       else no_content |}.

(** *** More vocabulary: bytes, lines and events *)

(** How many times the byte [c] occurs in [s]. *)
Fixpoint count_byte (c : ascii) (s : string) : nat :=
  match s with
  | EmptyString => 0%nat
  | String a s' => ((if Ascii.eqb a c then 1 else 0) + count_byte c s')%nat
  end.

(** The line feed, as a byte. *)
Definition LF : ascii := "010"%char.

(** A byte [url.QueryEscape] copies: a letter, a digit or one of [-_.~]. *)
Definition unreserved (c : ascii) : bool := negb (url.shouldEscape c).

(** A point before it is written: measurement, tags, value, timestamp. *)
Definition RawPoint : Set := (string * string * Z * Z)%type.

(** The line [appendPoint] writes for a point. *)
Definition line_of (p : RawPoint) : string :=
  let '(m, t, v, ts) := p in
  m ++ "," ++ t ++ " value=" ++ fmt_d v ++ " " ++ fmt_d ts.

(** [appendPoint] on a buffer, for a point. *)
Definition append_raw (output : string) (p : RawPoint) : string :=
  let '(m, t, v, ts) := p in appendPoint output m t v ts.

Definition is_sleep (ev : Event) : bool :=
  match ev with Sleep _ => true | _ => false end.

Definition is_get (ev : Event) : bool :=
  match ev with HttpGet _ => true | _ => false end.

(** The sleeps of a trace. *)
Definition sleeps (t : list Event) : list Event := filter is_sleep t.

(** An event of publishing: a request or a log line. *)
Definition net_event (ev : Event) : bool :=
  is_log ev || is_post ev || is_get ev.

(** The write request [postToInfluxdb] makes for a device. *)
Definition write_of (baseurl hostname : string) (ts : Z) (g : GPUInfo) : Event :=
  HttpPost (baseurl ++ "write?db=GPU") "plain/text"
    (render_payload (device_points hostname ts g)).

(** The world after a cycle that sampled and published [n] devices. *)
Definition after_cycle (w : World) (n : nat) : World :=
  {| clock_reads := S (clock_reads w); runs := S (runs w);
     requests := requests w + 1 + n |}.

(** A device whose product name needs no escaping. *)
Definition gtx_1080 : GPUInfo :=
  {| ID := "2"; ProductName := "GeForce-GTX-1080"; ProductBrand := "GeForce";
     UUID := "GPU-0f1e2d3c";
     MinorNumber := 2;
     FBMemoryUsage :=
       {| Total := "8114 MiB"; Used := "310 MiB"; Free := "7804 MiB" |};
     Bar1MemoryUsage :=
       {| Total := "256 MiB"; Used := "5 MiB"; Free := "251 MiB" |};
     Utilization :=
       {| GPUUtil := "12 %"; MemoryUtil := "3 %"; EncoderUtil := "0 %";
          DecoderUtil := "0 %" |} |}.

(** A host with [gpus] whose server answers 500 to every request. *)
Definition always_rejected (gpus : list GPUInfo) : Env :=
  {| env_hostname := "node1";
     env_getenv := fun _ => "http://influxdb:8086/";
     env_now := fun k => 1500000000000000000 + 5000000000 * Z.of_nat k;
     env_exec := fun _ => inl "<nvidia_smi_log/>";
     env_unmarshal := fun _ => inl (report_of gpus);
     env_http := fun _ => server_error |}.

(** * Properties *)

(** ** Strings *)

Lemma length_append (s t : string) :
  length (s ++ t) = (length s + length t)%nat.
Proof. induction s as [|c s IH]; simpl; [reflexivity | now rewrite IH]. Qed.

Lemma append_nil_r (s : string) : s ++ "" = s.
Proof. induction s as [|c s IH]; simpl; [reflexivity | now rewrite IH]. Qed.

Lemma append_assoc (s t u : string) : (s ++ t) ++ u = s ++ (t ++ u).
Proof. induction s as [|c s IH]; simpl; [reflexivity | now rewrite IH]. Qed.

Lemma substring_0_all (s : string) : substring 0 (length s) s = s.
Proof. induction s as [|c s IH]; simpl; [reflexivity | now rewrite IH]. Qed.

Lemma substring_0_append (s t : string) (n : nat) :
  (n <= length s)%nat -> substring 0 n (s ++ t) = substring 0 n s.
Proof.
  revert n; induction s as [|c s IH]; intros [|n] Hn; simpl in *;
    try reflexivity; try lia.
  - destruct t; reflexivity.
  - rewrite IH by lia. reflexivity.
Qed.

Lemma substring_skip_append (s t : string) (n : nat) :
  substring (length s) n (s ++ t) = substring 0 n t.
Proof. induction s as [|c s IH]; simpl; [reflexivity | exact IH]. Qed.

Lemma substring_split (s : string) (n : nat) :
  (n <= length s)%nat ->
  s = substring 0 n s ++ substring n (length s - n) s.
Proof.
  revert n; induction s as [|c s IH]; intros [|n] Hn; simpl in *;
    try reflexivity; try lia.
  - now rewrite substring_0_all.
  - f_equal. apply IH. lia.
Qed.

Lemma HasPrefix_length (s old : string) :
  strings.HasPrefix s old = true -> (length old <= length s)%nat.
Proof.
  unfold strings.HasPrefix. intros H.
  apply andb_true_iff in H. destruct H as [H _]. now apply Nat.leb_le in H.
Qed.

Lemma HasPrefix_refl (s : string) : strings.HasPrefix s s = true.
Proof.
  unfold strings.HasPrefix.
  now rewrite Nat.leb_refl, substring_0_all, String.eqb_refl.
Qed.

Lemma HasPrefix_append (s t old : string) :
  (length old <= length s)%nat ->
  strings.HasPrefix (s ++ t) old = strings.HasPrefix s old.
Proof.
  intros H. unfold strings.HasPrefix.
  rewrite substring_0_append by exact H.
  rewrite length_append.
  replace (length old <=? length s + length t)%nat with true
    by (symmetry; apply Nat.leb_le; lia).
  replace (length old <=? length s)%nat with true
    by (symmetry; apply Nat.leb_le; lia).
  reflexivity.
Qed.

Lemma HasSuffix_append (s suffix : string) :
  strings.HasSuffix (s ++ suffix) suffix = true.
Proof.
  unfold strings.HasSuffix. rewrite length_append.
  replace (length s + length suffix - length suffix)%nat with (length s) by lia.
  rewrite substring_skip_append, substring_0_all, String.eqb_refl.
  replace (length suffix <=? length s + length suffix)%nat with true
    by (symmetry; apply Nat.leb_le; lia).
  reflexivity.
Qed.

(** [HasSuffix] decides "ends with [suffix]". *)
Lemma HasSuffix_iff (s suffix : string) :
  strings.HasSuffix s suffix = true <-> exists p, s = p ++ suffix.
Proof.
  split.
  - unfold strings.HasSuffix. intros H.
    apply andb_true_iff in H. destruct H as [Hl He].
    apply Nat.leb_le in Hl. apply String.eqb_eq in He.
    exists (substring 0 (length s - length suffix) s).
    assert (Hs := substring_split s (length s - length suffix) ltac:(lia)).
    replace (length s - (length s - length suffix))%nat with (length suffix)
      in Hs by lia.
    now rewrite He in Hs.
  - intros [p ->]. apply HasSuffix_append.
Qed.

(** ** [strings.Replace] *)

Lemma replace_from_skip_all (old new s : string) (k : nat) :
  (length s <= k)%nat -> strings.replace_from old new s k = "".
Proof.
  revert k; induction s as [|c s IH]; intros k Hk; simpl in *.
  - reflexivity.
  - destruct k as [|k]; [lia |]. apply IH. lia.
Qed.

(** An occurrence of [old] at the very end is replaced. *)
Lemma replace_from_old (old new : string) :
  old <> "" -> strings.replace_from old new old 0 = new.
Proof.
  intros Hne. destruct old as [|o os]; [congruence |].
  cbn [strings.replace_from].
  rewrite HasPrefix_refl, replace_from_skip_all, append_nil_r.
  - reflexivity.
  - simpl. lia.
Qed.

Section ReplaceFacts.

Variables old new : string.

(** Nothing is replaced where [old] does not occur. *)
Lemma replace_from_absent (s : string) :
  occurs old s = false -> strings.replace_from old new s 0 = s.
Proof.
  induction s as [|c s IH]; simpl; intros H; [reflexivity |].
  apply orb_false_iff in H. destruct H as [H1 H2].
  rewrite H1, IH by exact H2. reflexivity.
Qed.

(** [old] has no border: it cannot start inside a shorter string and end
    inside a copy of itself put behind. *)
Hypothesis old_borderless :
  forall s, s <> "" -> strings.HasPrefix (s ++ old) old = strings.HasPrefix s old.

(** The occurrence of [old] at the end is replaced, whatever stands before
    it. *)
Lemma replace_from_append_old (s : string) (k : nat) :
  old <> "" -> (k <= length s)%nat ->
  strings.replace_from old new (s ++ old) k
  = strings.replace_from old new s k ++ new.
Proof.
  intros Hne. revert k; induction s as [|c s IH]; intros k Hk.
  - simpl in Hk. replace k with 0%nat by lia. simpl.
    now apply replace_from_old.
  - destruct k as [|k].
    + change (String c s ++ old) with (String c (s ++ old)).
      cbn [strings.replace_from].
      change (String c (s ++ old)) with (String c s ++ old).
      rewrite old_borderless by discriminate.
      destruct (strings.HasPrefix (String c s) old) eqn:Hp.
      * apply HasPrefix_length in Hp. simpl in Hp.
        rewrite IH by lia. now rewrite append_assoc.
      * rewrite IH by lia. reflexivity.
    + simpl in *. apply IH. lia.
Qed.

End ReplaceFacts.

Lemma MiB_borderless (s : string) :
  s <> "" ->
  strings.HasPrefix (s ++ " MiB") " MiB" = strings.HasPrefix s " MiB".
Proof.
  intros Hs.
  destruct s as [|c0 [|c1 [|c2 [|c3 s]]]]; [congruence | | | |];
    cbn; try reflexivity;
    repeat match goal with
           | |- context [Ascii.eqb ?a ?b] => destruct (Ascii.eqb_spec a b); subst; cbn
           end; try reflexivity; try discriminate;
    destruct s; reflexivity.
Qed.

Lemma percent_borderless (s : string) :
  s <> "" ->
  strings.HasPrefix (s ++ " %") " %" = strings.HasPrefix s " %".
Proof.
  intros Hs.
  destruct s as [|c0 [|c1 s]]; [congruence | |];
    cbn; try reflexivity;
    repeat match goal with
           | |- context [Ascii.eqb ?a ?b] => destruct (Ascii.eqb_spec a b); subst; cbn
           end; try reflexivity; try discriminate;
    destruct s; reflexivity.
Qed.

(** Where the unit occurs only at the end, [Replace] strips it. *)
Lemma Replace_MiB (s : string) :
  occurs " MiB" s = false -> strings.Replace (s ++ " MiB") " MiB" "" = s.
Proof.
  intros H. unfold strings.Replace. cbn [String.eqb].
  rewrite replace_from_append_old; try discriminate; try lia.
  - rewrite replace_from_absent by exact H. apply append_nil_r.
  - apply MiB_borderless.
Qed.

Lemma Replace_percent (s : string) :
  occurs " %" s = false -> strings.Replace (s ++ " %") " %" "" = s.
Proof.
  intros H. unfold strings.Replace. cbn [String.eqb].
  rewrite replace_from_append_old; try discriminate; try lia.
  - rewrite replace_from_absent by exact H. apply append_nil_r.
  - apply percent_borderless.
Qed.

(** ** [strconv.ParseInt] *)

Lemma pow2_63 : 2 ^ 63 = 9223372036854775808.
Proof. reflexivity. Qed.

Lemma pow2_64 : 2 ^ 64 = 18446744073709551616.
Proof. reflexivity. Qed.

Lemma wrap64_small (z : Z) : - 2 ^ 63 <= z < 2 ^ 63 -> wrap64 z = z.
Proof.
  unfold wrap64. rewrite pow2_63, pow2_64. intros H.
  rewrite Z.mod_small by lia. lia.
Qed.

Lemma is_digit_val (c : ascii) :
  is_digit c = true ->
  strconv.digit_val (byte_val c) = Some (byte_val c - 48)
  /\ 0 <= byte_val c - 48 < 10.
Proof.
  unfold is_digit, strconv.digit_val. intros H. rewrite H.
  apply andb_true_iff in H. destruct H as [H1 H2].
  apply Z.leb_le in H1. apply Z.leb_le in H2. split; [reflexivity | lia].
Qed.

Lemma digits_value_mono (s : string) (acc : Z) :
  all_digits s = true -> 0 <= acc -> acc <= digits_value s acc.
Proof.
  revert acc; induction s as [|c s IH]; simpl; intros acc H Hacc; [lia |].
  apply andb_true_iff in H. destruct H as [Hc Hs].
  destruct (is_digit_val c Hc) as [_ Hd].
  specialize (IH (acc * 10 + (byte_val c - 48)) Hs). lia.
Qed.

Lemma all_digits_run (s : string) : all_digits (digit_run s) = true.
Proof.
  induction s as [|c s IH]; simpl; [reflexivity |].
  destruct (is_digit c) eqn:E; simpl; [now rewrite E | reflexivity].
Qed.

(** A byte that is not a decimal digit is a syntax error. *)
Lemma parse_digits_nondigit (c : ascii) (s : string) (n : Z) :
  is_digit c = false ->
  strconv.parse_digits (String c s) n = (0, Some strconv.ErrSyntax).
Proof.
  unfold is_digit. intros H. cbn [strconv.parse_digits].
  unfold strconv.digit_val. rewrite H.
  destruct ((97 <=? strconv.lower (byte_val c))
            && (strconv.lower (byte_val c) <=? 122)) eqn:E; [| reflexivity].
  apply andb_true_iff in E. destruct E as [E1 _]. apply Z.leb_le in E1.
  replace (strconv.lower (byte_val c) - 97 + 10 >=? 10) with true;
    [reflexivity |].
  symmetry. apply Z.geb_le. lia.
Qed.

(** One digit more: the accumulator follows [digits_value] as long as the
    number fits 64 bits. *)
Lemma parse_digits_digit (c : ascii) (s : string) (n : Z) :
  is_digit c = true -> 0 <= n < 2 ^ 64 ->
  strconv.parse_digits (String c s) n
  = if n * 10 + (byte_val c - 48) <? 2 ^ 64
    then strconv.parse_digits s (n * 10 + (byte_val c - 48))
    else (strconv.maxUint64, Some strconv.ErrRange).
Proof.
  intros Hc Hn. cbn [strconv.parse_digits].
  destruct (is_digit_val c Hc) as [-> Hd].
  set (d := byte_val c - 48) in *.
  replace (d >=? 10) with false
    by (symmetry; rewrite Z.geb_leb; apply Z.leb_gt; lia).
  change (strconv.maxUint64 / 10 + 1) with 1844674407370955162.
  unfold strconv.maxUint64. rewrite pow2_64 in *.
  destruct (Z.geb_spec n 1844674407370955162) as [Hge | Hlt].
  - destruct (Z.ltb_spec (n * 10 + d) 18446744073709551616); [lia | reflexivity].
  - cbv zeta.
    destruct (Z.ltb_spec (n * 10 + d) 18446744073709551616) as [Hfit | Hover].
    + rewrite Z.mod_small by lia.
      destruct (Z.ltb_spec (n * 10 + d) (n * 10)); [lia |].
      destruct (Z.gtb_spec (n * 10 + d) (18446744073709551616 - 1)); [lia |].
      reflexivity.
    + replace ((n * 10 + d) mod 18446744073709551616)
        with (n * 10 + d - 18446744073709551616).
      * destruct (Z.ltb_spec (n * 10 + d - 18446744073709551616) (n * 10));
          [reflexivity | lia].
      * apply Z.mod_unique with (q := 1); lia.
Qed.

(** On a string of digits [ParseUint] computes the number, or reports that
    it does not fit 64 bits. *)
Lemma parse_digits_all_digits (s : string) (n : Z) :
  all_digits s = true -> 0 <= n < 2 ^ 64 ->
  strconv.parse_digits s n
  = if digits_value s n <? 2 ^ 64 then (digits_value s n, None)
    else (strconv.maxUint64, Some strconv.ErrRange).
Proof.
  revert n; induction s as [|c s IH]; intros n H Hn.
  - cbn [strconv.parse_digits digits_value].
    destruct (Z.ltb_spec n (2 ^ 64)); [reflexivity | lia].
  - simpl in H. apply andb_true_iff in H. destruct H as [Hc Hs].
    rewrite parse_digits_digit by assumption.
    destruct (is_digit_val c Hc) as [_ Hd]. cbn [digits_value].
    destruct (Z.ltb_spec (n * 10 + (byte_val c - 48)) (2 ^ 64)) as [Hfit | Hover].
    + apply IH; [exact Hs | lia].
    + pose proof (digits_value_mono s (n * 10 + (byte_val c - 48)) Hs).
      destruct (Z.ltb_spec (digits_value s (n * 10 + (byte_val c - 48))) (2 ^ 64));
        [lia | reflexivity].
Qed.

(** A byte that is not a digit, met before the digits read so far leave 64
    bits, is a syntax error. *)
Lemma parse_digits_malformed (s : string) (n : Z) :
  all_digits s = false -> 0 <= n < 2 ^ 64 ->
  digits_value (digit_run s) n < 2 ^ 64 ->
  strconv.parse_digits s n = (0, Some strconv.ErrSyntax).
Proof.
  revert n; induction s as [|c s IH]; intros n H Hn Hrun.
  - discriminate.
  - cbn [all_digits digit_run] in H, Hrun. destruct (is_digit c) eqn:Hc.
    + cbn [andb] in H. cbn [digits_value] in Hrun.
      destruct (is_digit_val c Hc) as [_ Hd].
      pose proof (digits_value_mono (digit_run s) (n * 10 + (byte_val c - 48))
                    (all_digits_run s)).
      rewrite parse_digits_digit by assumption.
      destruct (Z.ltb_spec (n * 10 + (byte_val c - 48)) (2 ^ 64)); [| lia].
      apply IH; [exact H | lia | exact Hrun].
    + now apply parse_digits_nondigit.
Qed.

Lemma digits_value_nonneg (s : string) (acc : Z) :
  all_digits s = true -> 0 <= acc -> 0 <= digits_value s acc.
Proof. intros H Hacc. pose proof (digits_value_mono s acc H Hacc). lia. Qed.

(** On an integer literal [ParseInt] returns the nearest [int64]. *)
Lemma ParseInt_literal (s : string) :
  int_literal s = true ->
  fst (strconv.ParseInt s) = clamp64 (literal_value s).
Proof.
  unfold int_literal, literal_value, strconv.ParseInt, unsigned_part, is_negative.
  destruct s as [|c rest]; [discriminate |].
  set (body := if (Ascii.eqb c "+" || Ascii.eqb c "-")%bool then rest else String c rest).
  replace (if Ascii.eqb c "+" then rest
           else if Ascii.eqb c "-" then rest else String c rest) with body
    by (subst body; destruct (Ascii.eqb c "+"), (Ascii.eqb c "-"); reflexivity).
  destruct body as [|b bs] eqn:Eb; [discriminate |]. intros Hd.
  unfold strconv.ParseUint.
  rewrite parse_digits_all_digits by (rewrite ?pow2_64; first [exact Hd | lia]).
  pose proof (digits_value_nonneg (String b bs) 0 Hd ltac:(lia)) as Hv.
  set (v := digits_value (String b bs) 0) in *.
  unfold clamp64, neg64, strconv.maxUint64. rewrite pow2_63, pow2_64 in *.
  destruct (Z.ltb_spec v 18446744073709551616) as [Hfit | Hover].
  - destruct (Ascii.eqb c "-"); cbn [negb andb fst].
    + destruct (Z.gtb_spec v 9223372036854775808); cbn [fst]; [lia |].
      destruct (Z.eq_dec v 9223372036854775808) as [-> | Hne]; [reflexivity |].
      rewrite (wrap64_small v) by (rewrite pow2_63; lia).
      rewrite wrap64_small by (rewrite pow2_63; lia). lia.
    + destruct (Z.geb_spec v 9223372036854775808); cbn [fst]; [lia |].
      rewrite wrap64_small by (rewrite pow2_63; lia). lia.
  - destruct (Ascii.eqb c "-"); cbn [negb andb fst];
      repeat match goal with
             | |- context [Z.geb ?a ?b] => destruct (Z.geb_spec a b)
             | |- context [Z.gtb ?a ?b] => destruct (Z.gtb_spec a b)
             end; cbn [fst]; lia.
Qed.

(** Without a digit, or with a byte that is not a digit before the digits
    read leave 64 bits, [ParseInt] returns 0. *)
Lemma ParseInt_malformed (s : string) :
  int_literal s = false ->
  digits_value (digit_run (unsigned_part s)) 0 < 2 ^ 64 ->
  fst (strconv.ParseInt s) = 0.
Proof.
  unfold int_literal, strconv.ParseInt, unsigned_part.
  destruct s as [|c rest]; [reflexivity |].
  set (body := if (Ascii.eqb c "+" || Ascii.eqb c "-")%bool then rest else String c rest).
  replace (if Ascii.eqb c "+" then rest
           else if Ascii.eqb c "-" then rest else String c rest) with body
    by (subst body; destruct (Ascii.eqb c "+"), (Ascii.eqb c "-"); reflexivity).
  destruct body as [|b bs] eqn:Eb; [reflexivity |]. intros Hd Hrun.
  unfold strconv.ParseUint.
  rewrite parse_digits_malformed; [reflexivity | exact Hd | rewrite pow2_64; lia | exact Hrun].
Qed.

(** ** The conversions *)

Lemma HasPrefix_head (c o : ascii) (s os : string) :
  Ascii.eqb c o = false -> strings.HasPrefix (String c s) (String o os) = false.
Proof.
  intros H. unfold strings.HasPrefix. cbn [length substring String.eqb].
  rewrite H. apply andb_false_r.
Qed.

Lemma occurs_without_head (o : ascii) (os s : string) :
  has_byte o s = false -> occurs (String o os) s = false.
Proof.
  induction s as [|c s IH]; simpl; intros H; [reflexivity |].
  apply orb_false_iff in H. destruct H as [H1 H2].
  rewrite HasPrefix_head by exact H1. now apply IH.
Qed.

Lemma digits_without_space (s : string) :
  all_digits s = true -> has_byte " " s = false.
Proof.
  induction s as [|c s IH]; simpl; intros H; [reflexivity |].
  apply andb_true_iff in H. destruct H as [Hc Hs].
  rewrite IH by exact Hs. rewrite orb_false_r.
  destruct (Ascii.eqb_spec c " ") as [-> | _];
    [vm_compute in Hc; discriminate | reflexivity].
Qed.

Lemma literal_without_space (s : string) :
  int_literal s = true -> has_byte " " s = false.
Proof.
  unfold int_literal, unsigned_part. destruct s as [|c rest]; [discriminate |].
  destruct (Ascii.eqb_spec c "+") as [-> | _];
    [| destruct (Ascii.eqb_spec c "-") as [-> | _]]; cbn [orb].
  - destruct rest; [discriminate |]. intros H.
    apply digits_without_space in H. simpl in *. exact H.
  - destruct rest; [discriminate |]. intros H.
    apply digits_without_space in H. simpl in *. exact H.
  - apply digits_without_space.
Qed.

Lemma mul64_MiB (m : Z) :
  - 2 ^ 43 <= m < 2 ^ 43 -> mul64 (mul64 m 1024) 1024 = m * 1048576.
Proof.
  change (2 ^ 43) with 8796093022208. intros H. unfold mul64.
  rewrite (wrap64_small (m * 1024)) by (rewrite pow2_63; lia).
  rewrite wrap64_small by (rewrite pow2_63; lia). lia.
Qed.

Lemma clamp64_small (z : Z) : - 2 ^ 63 <= z < 2 ^ 63 -> clamp64 z = z.
Proof. unfold clamp64. rewrite pow2_63. lia. Qed.

(** What [memUsage2Int] computes on an integer followed by the unit. *)
Lemma memUsage2Int_literal (s : string) :
  int_literal s = true ->
  memUsage2Int (s ++ " MiB")
  = mul64 (mul64 (clamp64 (literal_value s)) 1024) 1024.
Proof.
  intros H. unfold memUsage2Int.
  rewrite HasSuffix_append, Replace_MiB, ParseInt_literal by
    first [exact H | apply occurs_without_head, literal_without_space, H].
  reflexivity.
Qed.

(** What [utilization2Float] computes on an integer followed by the unit. *)
Lemma utilization2Float_literal (s : string) :
  int_literal s = true ->
  utilization2Float (s ++ " %") = clamp64 (literal_value s).
Proof.
  intros H. unfold utilization2Float.
  rewrite HasSuffix_append, Replace_percent, ParseInt_literal by
    first [exact H | apply occurs_without_head, literal_without_space, H].
  reflexivity.
Qed.

Lemma no_suffix (s suffix : string) :
  (forall p, s <> p ++ suffix) -> strings.HasSuffix s suffix = false.
Proof.
  intros H. destruct (strings.HasSuffix s suffix) eqn:E; [| reflexivity].
  apply HasSuffix_iff in E. destruct E as [p E]. now apply H in E.
Qed.

(** C5 (as amended): on ["<integer> MiB"], with the integer between
    [-2^43] and [2^43 - 1] so that the byte count fits an [int64],
    [memUsage2Int] returns the integer times 1,048,576; on a string that does
    not end with [" MiB"] it returns 0; and on a string that ends with
    [" MiB"] after a malformed integer part it returns 0, when that part
    holds no [" MiB"] of its own and the digits it starts with, after its
    sign if it has one, denote a number below 2^64. *)
Theorem memUsage2Int_spec (usage : string) :
  (forall s, usage = s ++ " MiB" -> int_literal s = true ->
     - 2 ^ 43 <= literal_value s < 2 ^ 43 ->
     memUsage2Int usage = literal_value s * 1048576)
  /\ ((forall s, usage <> s ++ " MiB") -> memUsage2Int usage = 0)
  /\ (forall s, usage = s ++ " MiB" -> int_literal s = false ->
        occurs " MiB" s = false ->
        digits_value (digit_run (unsigned_part s)) 0 < 2 ^ 64 ->
        memUsage2Int usage = 0).
Proof.
  split; [| split].
  - intros s -> Hlit Hrange. rewrite memUsage2Int_literal by exact Hlit.
    rewrite clamp64_small.
    + now apply mul64_MiB.
    + change (2 ^ 43) with 8796093022208 in Hrange. rewrite pow2_63. lia.
  - intros H. unfold memUsage2Int. now rewrite no_suffix.
  - intros s -> Hlit Hocc Hrun. unfold memUsage2Int.
    rewrite HasSuffix_append, Replace_MiB, ParseInt_malformed by assumption.
    reflexivity.
Qed.

Lemma memUsage2Int_spec_witness :
  memUsage2Int "11519 MiB" = 11519 * 1048576
  /\ memUsage2Int "0 MiB" = 0
  /\ memUsage2Int "11519 MB" = 0
  /\ memUsage2Int "12.5 MiB" = 0.
Proof.
  split; [| split; [| split]].
  - apply (proj1 (memUsage2Int_spec "11519 MiB") "11519");
      [reflexivity | reflexivity | vm_compute; split; congruence].
  - apply (proj1 (memUsage2Int_spec "0 MiB") "0");
      [reflexivity | reflexivity | vm_compute; split; congruence].
  - apply (proj1 (proj2 (memUsage2Int_spec "11519 MB"))).
    intros s H.
    assert (E : strings.HasSuffix "11519 MB" " MiB" = true)
      by (apply HasSuffix_iff; now exists s).
    vm_compute in E. discriminate.
  - apply (proj2 (proj2 (memUsage2Int_spec "12.5 MiB")) "12.5");
      [reflexivity | reflexivity | reflexivity | vm_compute; reflexivity].
Defined.

(** C5 (as stated) fails: 2^43 MiB is 2^63 bytes, which wraps to [-2^63];
    an integer part that holds [" MiB"] itself loses it and parses; twenty
    nines leave 64 bits before the letter behind them is seen, with a sign
    before them or without. *)
Lemma memUsage2Int_counterexample :
  (int_literal "8796093022208" = true
   /\ memUsage2Int ("8796093022208" ++ " MiB") = - 2 ^ 63
   /\ memUsage2Int ("8796093022208" ++ " MiB")
      <> literal_value "8796093022208" * 1048576)
  /\ (int_literal "1 MiB2" = false
      /\ memUsage2Int ("1 MiB2" ++ " MiB") = 12 * 1048576
      /\ memUsage2Int ("1 MiB2" ++ " MiB") <> 0)
  /\ (int_literal "99999999999999999999x" = false
      /\ memUsage2Int ("99999999999999999999x" ++ " MiB") = - 1048576
      /\ memUsage2Int ("99999999999999999999x" ++ " MiB") <> 0)
  /\ (int_literal "+99999999999999999999x" = false
      /\ memUsage2Int ("+99999999999999999999x" ++ " MiB") = - 1048576
      /\ memUsage2Int ("+99999999999999999999x" ++ " MiB") <> 0).
Proof. vm_compute. repeat split; discriminate. Qed.

(** C6 (as amended): on ["<integer> %"], with an integer that fits an
    [int64], [utilization2Float] returns the integer; on a string that does
    not end with [" %"] it returns 0; and on a string that ends with [" %"]
    after a malformed integer part it returns 0, when that part holds no
    [" %"] of its own and the digits it starts with, after its sign if it
    has one, denote a number below 2^64. *)
Theorem utilization2Float_spec (utilization : string) :
  (forall s, utilization = s ++ " %" -> int_literal s = true ->
     - 2 ^ 63 <= literal_value s < 2 ^ 63 ->
     utilization2Float utilization = literal_value s)
  /\ ((forall s, utilization <> s ++ " %") -> utilization2Float utilization = 0)
  /\ (forall s, utilization = s ++ " %" -> int_literal s = false ->
        occurs " %" s = false ->
        digits_value (digit_run (unsigned_part s)) 0 < 2 ^ 64 ->
        utilization2Float utilization = 0).
Proof.
  split; [| split].
  - intros s -> Hlit Hrange. rewrite utilization2Float_literal by exact Hlit.
    now apply clamp64_small.
  - intros H. unfold utilization2Float. now rewrite no_suffix.
  - intros s -> Hlit Hocc Hrun. unfold utilization2Float.
    rewrite HasSuffix_append, Replace_percent, ParseInt_malformed by assumption.
    reflexivity.
Qed.

Lemma utilization2Float_spec_witness :
  utilization2Float "83 %" = 83
  /\ utilization2Float "100 %" = 100
  /\ utilization2Float "83%" = 0
  /\ utilization2Float "N/A %" = 0.
Proof.
  split; [| split; [| split]].
  - apply (proj1 (utilization2Float_spec "83 %") "83");
      [reflexivity | reflexivity | vm_compute; split; congruence].
  - apply (proj1 (utilization2Float_spec "100 %") "100");
      [reflexivity | reflexivity | vm_compute; split; congruence].
  - apply (proj1 (proj2 (utilization2Float_spec "83%"))).
    intros s H.
    assert (E : strings.HasSuffix "83%" " %" = true)
      by (apply HasSuffix_iff; now exists s).
    vm_compute in E. discriminate.
  - apply (proj2 (proj2 (utilization2Float_spec "N/A %")) "N/A");
      [reflexivity | reflexivity | reflexivity | vm_compute; reflexivity].
Defined.

(** C6 (as stated) fails: 2^63 does not fit an [int64] and comes back as
    [2^63 - 1]; an integer part that holds [" %"] itself loses it and
    parses; twenty nines leave 64 bits before the letter behind them is
    seen, with a sign before them or without. *)
Lemma utilization2Float_counterexample :
  (int_literal "9223372036854775808" = true
   /\ utilization2Float ("9223372036854775808" ++ " %") = 2 ^ 63 - 1
   /\ utilization2Float ("9223372036854775808" ++ " %")
      <> literal_value "9223372036854775808")
  /\ (int_literal "1 %2" = false
      /\ utilization2Float ("1 %2" ++ " %") = 12
      /\ utilization2Float ("1 %2" ++ " %") <> 0)
  /\ (int_literal "99999999999999999999x" = false
      /\ utilization2Float ("99999999999999999999x" ++ " %") = 2 ^ 63 - 1
      /\ utilization2Float ("99999999999999999999x" ++ " %") <> 0)
  /\ (int_literal "-99999999999999999999x" = false
      /\ utilization2Float ("-99999999999999999999x" ++ " %") = - 2 ^ 63
      /\ utilization2Float ("-99999999999999999999x" ++ " %") <> 0).
Proof. vm_compute. repeat split; discriminate. Qed.

(** ** Encoding *)

Lemma concat_snoc (sep x : string) (l : list string) :
  l <> [] -> String.concat sep (l ++ [x]) = String.concat sep l ++ sep ++ x.
Proof.
  induction l as [|y l IH]; [congruence | intros _].
  destruct l as [|z l]; [reflexivity |].
  change (String.concat sep ((y :: z :: l) ++ [x]))
    with (y ++ sep ++ String.concat sep ((z :: l) ++ [x])).
  rewrite IH by discriminate.
  change (String.concat sep (y :: z :: l))
    with (y ++ sep ++ String.concat sep (z :: l)).
  now rewrite !append_assoc.
Qed.

Lemma render_point_length (p : Point) : (0 < length (render_point p))%nat.
Proof.
  unfold render_point. rewrite !length_append. simpl. lia.
Qed.

Lemma render_payload_length (ps : list Point) :
  ps <> [] -> (0 < length (render_payload ps))%nat.
Proof.
  unfold render_payload. destruct ps as [|p ps]; [congruence | intros _].
  pose proof (render_point_length p).
  destruct ps as [|q ps]; cbn [map String.concat]; [assumption |].
  rewrite length_append. lia.
Qed.

(** [appendPoint] adds a line to the payload. *)
Lemma appendPoint_snoc (ps : list Point) (p : Point) :
  appendPoint (render_payload ps) (measurement p) (render_tags (tags p))
    (value p) (timestamp p)
  = render_payload (ps ++ [p]).
Proof.
  unfold appendPoint. destruct ps as [|q ps].
  - reflexivity.
  - pose proof (render_payload_length (q :: ps) ltac:(discriminate)) as H.
    apply Nat.ltb_lt in H. rewrite H.
    unfold render_payload. rewrite map_app. cbn [map].
    rewrite concat_snoc by discriminate.
    now rewrite append_assoc.
Qed.

(** The buffer [postToInfluxdb] posts for a device holds the nine points of
    the device, one per line. *)
Lemma fill_postbuffer_points (b hostname : string) (ts : Z) (g : GPUInfo) :
  fill_postbuffer b hostname ts g = render_payload (device_points hostname ts g).
Proof.
  unfold fill_postbuffer, device_points, device_metrics. cbn [map fst snd].
  repeat match goal with
  | |- context [appendPoint ?out ?m (tags_of hostname g) ?v ts] =>
      lazymatch out with
      | EmptyString =>
          change (appendPoint out m (tags_of hostname g) v ts)
            with (appendPoint (render_payload [])
                    (measurement {| measurement := m;
                       tags := {| tag_hostname := hostname; tag_gpuid := ID g;
                                  tag_product := url.QueryEscape (ProductName g);
                                  tag_minor := MinorNumber g |};
                       value := v; timestamp := ts |})
                    (render_tags {| tag_hostname := hostname; tag_gpuid := ID g;
                                  tag_product := url.QueryEscape (ProductName g);
                                  tag_minor := MinorNumber g |})
                    v ts)
      | render_payload _ =>
          change (appendPoint out m (tags_of hostname g) v ts)
            with (appendPoint out
                    (measurement {| measurement := m;
                       tags := {| tag_hostname := hostname; tag_gpuid := ID g;
                                  tag_product := url.QueryEscape (ProductName g);
                                  tag_minor := MinorNumber g |};
                       value := v; timestamp := ts |})
                    (render_tags {| tag_hostname := hostname; tag_gpuid := ID g;
                                  tag_product := url.QueryEscape (ProductName g);
                                  tag_minor := MinorNumber g |})
                    v ts)
      end;
      rewrite (appendPoint_snoc _
                 {| measurement := m;
                    tags := {| tag_hostname := hostname; tag_gpuid := ID g;
                               tag_product := url.QueryEscape (ProductName g);
                               tag_minor := MinorNumber g |};
                    value := v; timestamp := ts |})
  end.
  reflexivity.
Qed.

Lemma device_points_length (hostname : string) (ts : Z) (g : GPUInfo) :
  List.length (device_points hostname ts g) = 9%nat.
Proof. reflexivity. Qed.

(** ** [url.QueryEscape] and [url.QueryUnescape] *)

Ltac each_byte c :=
  destruct c as [[] [] [] [] [] [] [] []]; vm_compute; try reflexivity;
  try discriminate; auto.

(** The two hex digits written for a byte are hex digits and give the byte
    back. *)
Lemma hex_digits_roundtrip (c : ascii) :
  url.ishex (url.upperhex (Z.shiftr (byte_val c) 4)) = true
  /\ url.ishex (url.upperhex (Z.land (byte_val c) 15)) = true
  /\ ascii_of_N
       (Z.to_N (Z.lor (Z.shiftl (url.unhex (url.upperhex (Z.shiftr (byte_val c) 4))) 4)
                      (url.unhex (url.upperhex (Z.land (byte_val c) 15))))) = c.
Proof. each_byte c. Qed.

(** A byte written as it is is neither of the two bytes the decoder
    rewrites. *)
Lemma unescaped_is_plain (c : ascii) :
  url.shouldEscape c = false ->
  Ascii.eqb c "%" = false /\ Ascii.eqb c "+" = false.
Proof. each_byte c. Qed.

Lemma hex_digits_unreserved (c : ascii) :
  url.shouldEscape (url.upperhex (Z.shiftr (byte_val c) 4)) = false
  /\ url.shouldEscape (url.upperhex (Z.land (byte_val c) 15)) = false.
Proof. each_byte c. Qed.

Lemma escape_well_escaped (s : string) : url.well_escaped (url.escape s) = true.
Proof.
  induction s as [|c s IH]; [reflexivity |].
  cbn [url.escape].
  destruct (Ascii.eqb c " "); [exact IH |].
  destruct (url.shouldEscape c) eqn:E.
  - destruct (hex_digits_roundtrip c) as (H1 & H2 & _).
    cbn [url.well_escaped]. rewrite Ascii.eqb_refl, H1, H2. exact IH.
  - destruct (unescaped_is_plain c E) as [Hp _].
    cbn [url.well_escaped]. rewrite Hp. exact IH.
Qed.

Lemma unescape_escape (s : string) : url.unescape_bytes (url.escape s) = s.
Proof.
  induction s as [|c s IH]; [reflexivity |].
  cbn [url.escape].
  destruct (Ascii.eqb_spec c " ") as [-> | _]; [cbn; now rewrite IH |].
  destruct (url.shouldEscape c) eqn:E.
  - destruct (hex_digits_roundtrip c) as (_ & _ & H).
    cbn [url.unescape_bytes]. rewrite Ascii.eqb_refl, H, IH. reflexivity.
  - destruct (unescaped_is_plain c E) as [Hp Hq].
    cbn [url.unescape_bytes]. rewrite Hp, Hq, IH. reflexivity.
Qed.

(** Decoding an escaped string gives the string back. *)
Lemma QueryUnescape_QueryEscape (s : string) :
  url.QueryUnescape (url.QueryEscape s) = Some s.
Proof.
  unfold url.QueryUnescape, url.QueryEscape.
  now rewrite escape_well_escaped, unescape_escape.
Qed.

(** An escaped string is made of unreserved bytes, [%] and [+] only. *)
Lemma QueryEscape_bytes (s : string) :
  all_bytes escaped_byte (url.QueryEscape s) = true.
Proof.
  unfold url.QueryEscape, escaped_byte.
  induction s as [|c s IH]; [reflexivity |].
  cbn [url.escape].
  destruct (Ascii.eqb c " "); [exact IH |].
  destruct (url.shouldEscape c) eqn:E.
  - destruct (hex_digits_unreserved c) as [H1 H2].
    cbn [all_bytes]. rewrite H1, H2, IH. reflexivity.
  - cbn [all_bytes]. rewrite E, IH. reflexivity.
Qed.







(** ** Runs *)

Ltac run_step :=
  unfold bind, http_Get, http_Post, http_request, glog_Infof, glog_Errorf,
    time_Sleep, emit, ret, panic; cbn.

Lemma logs_no_post (l : list Event) :
  forallb is_log l = true -> posts l = [].
Proof.
  induction l as [|ev l IH]; [reflexivity |]. cbn [forallb]. intros H.
  apply andb_true_iff in H. destruct H as [H1 H2].
  destruct ev; try discriminate. cbn. now apply IH.
Qed.

Lemma logs_no_exec (l : list Event) :
  forallb is_log l = true -> samplings l = [].
Proof.
  induction l as [|ev l IH]; [reflexivity |]. cbn [forallb]. intros H.
  apply andb_true_iff in H. destruct H as [H1 H2].
  destruct ev; try discriminate. cbn. now apply IH.
Qed.

(** [postURL] when the request gets a response: two log lines (or more)
    around the request, and the function returns. *)
Lemma postURL_answered (url body : string) (e : Env) (w : World) :
  http_resp (env_http e (requests w)) <> None ->
  exists logs,
    forallb is_log logs = true
    /\ postURL url body e w
       = {| trace := Log INFO ("posting: " ++ body)
                     :: HttpPost url "plain/text" body :: logs;
            world := sent w;
            result := Returned tt |}.
Proof.
  intros H. unfold postURL. run_step.
  destruct (env_http e (requests w)) as [err | resp err | resp]; cbn in *;
    [congruence | |];
    destruct (ReadErr resp); cbn;
    refine (ex_intro _ _ (conj _ eq_refl)); reflexivity.
Qed.

(** [postURL] when the request fails: the error is logged, then [resp.Body]
    panics. *)
Lemma postURL_failed (url body : string) (e : Env) (w : World) (err : error) :
  env_http e (requests w) = Failed err ->
  postURL url body e w
  = {| trace := [Log INFO ("posting: " ++ body);
                 HttpPost url "plain/text" body;
                 Log ERROR ("post error: " ++ err)];
       world := sent w;
       result := Panicked |}.
Proof. intros H. unfold postURL. run_step. rewrite H. reflexivity. Qed.

(** The loop over the devices when every write gets a response. *)
Lemma post_each_answered (gpus : list GPUInfo) (b url hostname : string)
    (ts : Z) (e : Env) (w : World) :
  answered e w 0 (List.length gpus) ->
  let run := post_each gpus b url hostname ts e w in
  result run = Returned tt
  /\ posts (trace run)
     = map (fun g => HttpPost url "plain/text"
                       (render_payload (device_points hostname ts g))) gpus
  /\ samplings (trace run) = []
  /\ world run
     = {| clock_reads := clock_reads w; runs := runs w;
          requests := requests w + List.length gpus |}.
Proof.
  revert b w; induction gpus as [|g gpus IH]; intros b w Hans.
  - cbn. repeat split. destruct w; cbn. now rewrite Nat.add_0_r.
  - cbn [post_each]. unfold bind.
    destruct (postURL_answered url (fill_postbuffer b hostname ts g) e w)
      as (logs & Hlogs & ->).
    { specialize (Hans 0%nat ltac:(cbn; lia)).
      now rewrite !Nat.add_0_r in Hans. }
    cbn [result trace world].
    destruct (IH (fill_postbuffer b hostname ts g) (sent w)) as (Hr & Hp & Hs & Hw).
    { intros k Hk. specialize (Hans (S k) ltac:(cbn; lia)).
      cbn [sent requests]. rewrite Nat.add_0_r in *.
      now rewrite Nat.add_succ_r in Hans. }
    cbv zeta in Hr, Hp, Hs, Hw. cbv zeta. repeat split.
    + exact Hr.
    + unfold posts in *. cbn [app filter is_post]. rewrite filter_app.
      fold (posts logs). rewrite logs_no_post by exact Hlogs.
      cbn [app map]. rewrite Hp, fill_postbuffer_points. reflexivity.
    + unfold samplings in *. cbn [app filter is_exec]. rewrite filter_app.
      fold (samplings logs). rewrite logs_no_exec by exact Hlogs. exact Hs.
    + rewrite Hw. cbn. f_equal. lia.
Qed.

(** [postToInfluxdb]: the creation call, its log lines, then the loop over
    the devices, or the panic on a nil report. *)
Lemma postToInfluxdb_run (xmlinfo : option NvidiaSmiLog)
    (baseurl hostname : string) (ts : Z) (e : Env) (w : World) :
  exists pre,
    forallb is_log pre = true
    /\ (created (env_http e (requests w)) = false ->
        exists code body,
          code <> 200
          /\ In (Log ERROR ("create database faild, code " ++ fmt_d code
                            ++ ", " ++ body)) pre)
    /\ postToInfluxdb xmlinfo baseurl hostname ts e w
       = match xmlinfo with
         | None =>
             {| trace := HttpGet (baseurl ++ "query?q=CREATE%20DATABASE%20GPU")
                         :: pre;
                world := sent w;
                result := Panicked |}
         | Some r =>
             let run := post_each (GPUInfoList r) "" (baseurl ++ "write?db=GPU")
                          hostname ts e (sent w) in
             {| trace := HttpGet (baseurl ++ "query?q=CREATE%20DATABASE%20GPU")
                         :: pre ++ trace run;
                world := world run;
                result := result run |}
         end.
Proof.
  unfold postToInfluxdb, getURL. run_step.
  destruct (env_http e (requests w)) as [err | resp err | resp]; cbn.
  - exists [Log ERROR ("url get error: " ++ err);
            Log ERROR "create database faild, code -1, "].
    split; [reflexivity | split].
    + intros _. exists (-1), "". split; [lia | right; left; reflexivity].
    + destruct xmlinfo as [r|]; cbn; [| reflexivity].
      fold (sent w). now destruct (post_each _ _ _ _ _ e (sent w)) as [t w' []].
  - exists [Log ERROR ("url get error: " ++ err);
            Log ERROR "create database faild, code -1, "].
    split; [reflexivity | split].
    + intros _. exists (-1), "". split; [lia | right; left; reflexivity].
    + destruct xmlinfo as [r|]; cbn; [| reflexivity].
      fold (sent w). now destruct (post_each _ _ _ _ _ e (sent w)) as [t w' []].
  - destruct resp as [status body [rerr|]]; cbn.
    + exists [Log ERROR ("parse url response error: " ++ rerr);
              Log ERROR "create database faild, code -1, "].
      split; [reflexivity | split].
      * intros _. exists (-1), "". split; [lia | right; left; reflexivity].
      * destruct xmlinfo as [r|]; cbn; [| reflexivity].
        fold (sent w). now destruct (post_each _ _ _ _ _ e (sent w)) as [t w' []].
    + destruct (Z.eqb_spec status 200) as [-> | Hne]; cbn.
      * exists [Log INFO ("got response " ++ body)].
        split; [reflexivity | split; [discriminate |]].
        destruct xmlinfo as [r|]; cbn; [| reflexivity].
        fold (sent w). now destruct (post_each _ _ _ _ _ e (sent w)) as [t w' []].
      * exists [Log INFO ("got response " ++ body);
                Log ERROR ("create database faild, code " ++ fmt_d status
                           ++ ", " ++ body)].
        split; [reflexivity | split].
        -- intros _. exists status, body. split; [exact Hne | right; left; reflexivity].
        -- destruct xmlinfo as [r|]; cbn; [| reflexivity].
           fold (sent w). now destruct (post_each _ _ _ _ _ e (sent w)) as [t w' []].
Qed.

Lemma logs_no_sleep (l : list Event) (s : Z) :
  forallb is_log l = true -> ~ In (Sleep s) l.
Proof.
  intros H Hin. rewrite forallb_forall in H. apply H in Hin. discriminate.
Qed.

Lemma bind_trace {A B} (m : M A) (f : A -> M B) (e : Env) (w : World) :
  exists rest, trace (bind m f e w) = (trace (m e w) ++ rest)%list.
Proof.
  unfold bind. destruct (result (m e w)); cbn [trace].
  - eexists; reflexivity.
  - exists []. now rewrite app_nil_r.
Qed.

(** [postURL] issues the request, whatever comes back. *)
Lemma postURL_trace (url body : string) (e : Env) (w : World) :
  exists rest,
    trace (postURL url body e w)
    = Log INFO ("posting: " ++ body) :: HttpPost url "plain/text" body :: rest.
Proof.
  unfold postURL. run_step.
  destruct (env_http e (requests w)) as [err | resp err | resp]; cbn;
    [eexists; reflexivity | |];
    destruct (ReadErr resp); cbn; eexists; reflexivity.
Qed.

(** The first device of the loop is posted, whatever the server answers. *)
Lemma post_each_first (g : GPUInfo) (gpus : list GPUInfo)
    (b url hostname : string) (ts : Z) (e : Env) (w : World) :
  exists rest,
    trace (post_each (g :: gpus) b url hostname ts e w)
    = Log INFO ("posting: " ++ fill_postbuffer b hostname ts g)
      :: HttpPost url "plain/text" (fill_postbuffer b hostname ts g) :: rest.
Proof.
  cbn [post_each].
  destruct (bind_trace (postURL url (fill_postbuffer b hostname ts g))
              (fun _ => post_each gpus (fill_postbuffer b hostname ts g) url
                          hostname ts) e w) as [rest ->].
  destruct (postURL_trace url (fill_postbuffer b hostname ts g) e w)
    as [rest' ->].
  eexists. cbn [app]. reflexivity.
Qed.

(** The loop stops at the first write that fails without a response. *)
Lemma post_each_failed (g : GPUInfo) (gpus : list GPUInfo)
    (b url hostname : string) (ts : Z) (e : Env) (w : World) (err : error) :
  env_http e (requests w) = Failed err ->
  post_each (g :: gpus) b url hostname ts e w
  = {| trace := [Log INFO ("posting: " ++ fill_postbuffer b hostname ts g);
                 HttpPost url "plain/text" (fill_postbuffer b hostname ts g);
                 Log ERROR ("post error: " ++ err)];
       world := sent w;
       result := Panicked |}.
Proof.
  intros H. cbn [post_each]. unfold bind.
  rewrite (postURL_failed _ _ e w err) by exact H. reflexivity.
Qed.

(** A cycle whose sampling succeeds: the command is run, the report is
    published, and the process sleeps if publishing returned. *)
Lemma cycle_sampled (addr hostname out : string) (r : NvidiaSmiLog)
    (e : Env) (w : World) :
  env_exec e (runs w) = inl out -> env_unmarshal e out = inl r ->
  cycle addr hostname e w
  = let p := postToInfluxdb (Some r) addr hostname (env_now e (clock_reads w)) e
               {| clock_reads := S (clock_reads w); runs := S (runs w);
                  requests := requests w |} in
    {| trace := Exec "nvidia-smi" ["-q"; "-x"]
                :: trace p
                   ++ match result p with
                      | Returned _ => [Sleep 5]
                      | Panicked => []
                      end;
       world := world p;
       result := result p |}.
Proof.
  intros Hexec Hxml.
  unfold cycle, getGPUInfo, time_Now_UnixNano, exec_Output, xml_Unmarshal.
  run_step. rewrite Hexec. cbn. rewrite Hxml. cbn.
  match goal with
  | |- context [result ?p] => destruct p as [t w' [[]|]]
  end; cbn; [reflexivity | now rewrite app_nil_r].
Qed.

(** A cycle whose sampling fails: the error is logged, and
    [postToInfluxdb] is called all the same, with a nil report. *)
Lemma cycle_not_sampled (addr hostname : string) (err : error)
    (e : Env) (w : World) :
  env_exec e (runs w) = inr err
  \/ (exists out, env_exec e (runs w) = inl out /\ env_unmarshal e out = inr err) ->
  exists pre,
    forallb is_log pre = true
    /\ cycle addr hostname e w
       = {| trace := Exec "nvidia-smi" ["-q"; "-x"]
                     :: Log ERROR ("get GPU info error: " ++ err)
                     :: HttpGet (addr ++ "query?q=CREATE%20DATABASE%20GPU")
                     :: pre;
            world := {| clock_reads := S (clock_reads w); runs := S (runs w);
                        requests := S (requests w) |};
            result := Panicked |}.
Proof.
  intros H.
  destruct (postToInfluxdb_run None addr hostname (env_now e (clock_reads w)) e
              {| clock_reads := S (clock_reads w); runs := S (runs w);
                 requests := requests w |}) as (pre & Hpre & _ & Hrun).
  exists pre. split; [exact Hpre |].
  unfold cycle, getGPUInfo, time_Now_UnixNano, exec_Output, xml_Unmarshal.
  destruct H as [Hexec | (out & Hexec & Hxml)].
  - run_step. rewrite Hexec. cbn. rewrite Hrun. reflexivity.
  - run_step. rewrite Hexec. cbn. rewrite Hxml. cbn. rewrite Hrun. reflexivity.
Qed.

(** A cycle that panics ends the loop. *)
Lemma main_loop_panics (n : nat) (addr hostname : string) (e : Env) (w : World) :
  result (cycle addr hostname e w) = Panicked ->
  main_loop (S n) addr hostname e w
  = {| trace := trace (cycle addr hostname e w);
       world := world (cycle addr hostname e w);
       result := Panicked |}.
Proof. intros H. cbn [main_loop]. unfold bind. now rewrite H. Qed.

(** [main] is the loop, with the host name and the address read once. *)
Lemma main_is_loop (n : nat) (e : Env) :
  main n e boot
  = main_loop n (env_getenv e "INFLUXDB_ADDR") (env_hostname e) e boot.
Proof.
  unfold main, os_Hostname, os_Getenv, bind. cbn -[main_loop].
  now destruct (main_loop n _ _ e boot).
Qed.

(** The loop over the devices when the write for device number [k] is the
    first to fail without a response: [k + 1] writes are made, the error is
    logged, and the loop panics. *)
Lemma post_each_fails_at (k : nat) (gpus : list GPUInfo)
    (b url hostname : string) (ts : Z) (e : Env) (w : World) (err : error) :
  (k < List.length gpus)%nat ->
  answered e w 0 k ->
  env_http e (requests w + k) = Failed err ->
  let run := post_each gpus b url hostname ts e w in
  result run = Panicked
  /\ In (Log ERROR ("post error: " ++ err)) (trace run)
  /\ List.length (posts (trace run)) = S k
  /\ samplings (trace run) = []
  /\ ~ In (Sleep 5) (trace run).
Proof.
  revert gpus b w; induction k as [|k IH]; intros gpus b w Hk Hans Hfail;
    (destruct gpus as [|g gpus]; [cbn in Hk; lia |]).
  - rewrite Nat.add_0_r in Hfail.
    rewrite (post_each_failed g gpus b url hostname ts e w err Hfail).
    cbv zeta. cbn [result trace]. repeat split.
    + right; right; left; reflexivity.
    + intros [H | [H | [H | H]]]; try discriminate; assumption.
  - cbn [post_each]. unfold bind.
    destruct (postURL_answered url (fill_postbuffer b hostname ts g) e w)
      as (logs & Hlogs & ->).
    { specialize (Hans 0%nat ltac:(lia)). now rewrite !Nat.add_0_r in Hans. }
    cbn [result trace world].
    destruct (IH gpus (fill_postbuffer b hostname ts g) (sent w))
      as (Hr & Hin & Hp & Hs & Hsl).
    { cbn in Hk. lia. }
    { intros j Hj. specialize (Hans (S j) ltac:(lia)).
      cbn [sent requests]. rewrite Nat.add_0_r in *.
      now rewrite Nat.add_succ_r in Hans. }
    { cbn [sent requests]. now rewrite Nat.add_succ_r in Hfail. }
    cbv zeta in Hr, Hin, Hp, Hs, Hsl. cbv zeta. repeat split.
    + exact Hr.
    + right; right. apply in_or_app. right. exact Hin.
    + unfold posts in *. cbn [app filter is_post]. rewrite filter_app.
      fold (posts logs). rewrite logs_no_post by exact Hlogs.
      cbn [app List.length]. now rewrite Hp.
    + unfold samplings in *. cbn [app filter is_exec]. rewrite filter_app.
      fold (samplings logs). rewrite logs_no_exec by exact Hlogs. exact Hs.
    + intros [H | [H | H]]; try discriminate.
      apply in_app_or in H. destruct H as [H | H]; [| now apply Hsl].
      now apply (logs_no_sleep logs 5 Hlogs).
Qed.

(** ** Sampling failures *)

(** C1 (the code departs from it): when [getGPUInfo] returns an error in a
    cycle (the diagnostic command fails, or its output does not decode),
    [main] logs the error, does not skip publishing (the creation call is
    made) and panics on the nil report: the loop ends in that cycle, with
    one sampling made however many cycles were left, and without
    sleeping. *)
Theorem sampling_failure_crashes (addr hostname : string) (e : Env)
    (w : World) (err : error) (n : nat) :
  env_exec e (runs w) = inr err
  \/ (exists out, env_exec e (runs w) = inl out /\ env_unmarshal e out = inr err) ->
  let run := main_loop (S n) addr hostname e w in
  result run = Panicked
  /\ samplings (trace run) = [Exec "nvidia-smi" ["-q"; "-x"]]
  /\ In (Log ERROR ("get GPU info error: " ++ err)) (trace run)
  /\ In (HttpGet (addr ++ "query?q=CREATE%20DATABASE%20GPU")) (trace run)
  /\ ~ In (Sleep 5) (trace run).
Proof.
  intros Hfail run. subst run.
  destruct (cycle_not_sampled addr hostname err e w Hfail) as (pre & Hpre & Hc).
  rewrite main_loop_panics by now rewrite Hc.
  rewrite Hc. cbn [result trace world]. repeat split.
  - unfold samplings. cbn [filter is_exec]. fold (samplings pre).
    now rewrite logs_no_exec.
  - right; left; reflexivity.
  - right; right; left; reflexivity.
  - intros [H | [H | [H | H]]]; try discriminate.
    now apply (logs_no_sleep pre 5 Hpre).
Qed.

Lemma sampling_failure_crashes_witness :
  env_exec without_nvidia_smi 0%nat
  = inr "exec: nvidia-smi: executable file not found in $PATH"
  /\ result (main_loop 3 "http://influxdb:8086/" "node1" without_nvidia_smi boot)
     = Panicked
  /\ samplings
       (trace (main_loop 3 "http://influxdb:8086/" "node1" without_nvidia_smi boot))
     = [Exec "nvidia-smi" ["-q"; "-x"]].
Proof.
  split; [reflexivity |].
  destruct (sampling_failure_crashes "http://influxdb:8086/" "node1"
              without_nvidia_smi boot
              "exec: nvidia-smi: executable file not found in $PATH" 2
              (or_introl eq_refl)) as (H1 & H2 & _).
  split; [exact H1 | exact H2].
Defined.

(** ** Publishing *)

(** C2 (the code departs from it): when, in a cycle that sampled a report,
    the write for device number [k] is the first to fail without a response
    (a connection error), [postURL] logs the error and panics on
    [resp.Body]: the loop ends in that cycle, after [k + 1] write requests,
    with one sampling made however many cycles were left, and without
    sleeping. *)
Theorem write_failure_crashes (addr hostname out : string) (r : NvidiaSmiLog)
    (e : Env) (w : World) (k : nat) (err : error) (n : nat) :
  env_exec e (runs w) = inl out -> env_unmarshal e out = inl r ->
  (k < List.length (GPUInfoList r))%nat ->
  answered e w 1 k ->
  env_http e (requests w + 1 + k) = Failed err ->
  let run := main_loop (S n) addr hostname e w in
  result run = Panicked
  /\ samplings (trace run) = [Exec "nvidia-smi" ["-q"; "-x"]]
  /\ In (Log ERROR ("post error: " ++ err)) (trace run)
  /\ List.length (posts (trace run)) = S k
  /\ ~ In (Sleep 5) (trace run).
Proof.
  intros Hexec Hxml Hk Hans Hfail run. subst run.
  pose proof (cycle_sampled addr hostname out r e w Hexec Hxml) as Hc.
  cbv zeta in Hc.
  destruct (postToInfluxdb_run (Some r) addr hostname (env_now e (clock_reads w))
              e {| clock_reads := S (clock_reads w); runs := S (runs w);
                   requests := requests w |}) as (pre & Hpre & _ & Hp).
  cbv zeta in Hp. rewrite Hp in Hc. clear Hp. cbn [result trace world] in Hc.
  destruct (post_each_fails_at k (GPUInfoList r) "" (addr ++ "write?db=GPU")
              hostname (env_now e (clock_reads w)) e
              (sent {| clock_reads := S (clock_reads w); runs := S (runs w);
                       requests := requests w |}) err Hk)
    as (Hr & Hin & Hposts & Hs & Hsl).
  { intros j Hj. specialize (Hans j Hj). cbn [sent requests].
    now rewrite Nat.add_0_r, <- Nat.add_1_r. }
  { cbn [sent requests]. now rewrite <- Nat.add_1_r. }
  cbv zeta in Hr, Hin, Hposts, Hs, Hsl.
  rewrite Hr in Hc. rewrite app_nil_r in Hc.
  rewrite main_loop_panics by now rewrite Hc.
  rewrite Hc. cbn [result trace world]. repeat split.
  - unfold samplings in *. cbn [filter is_exec]. rewrite filter_app.
    fold (samplings pre). rewrite logs_no_exec by exact Hpre. now rewrite Hs.
  - right; right. apply in_or_app. right. exact Hin.
  - unfold posts in *. cbn [filter is_post]. rewrite filter_app.
    fold (posts pre). rewrite logs_no_post by exact Hpre. exact Hposts.
  - intros [H | [H | H]]; try discriminate.
    apply in_app_or in H. destruct H as [H | H]; [| now apply Hsl].
    now apply (logs_no_sleep pre 5 Hpre).
Qed.

Lemma write_failure_crashes_witness :
  env_http (server_down [tesla_k80]) 1%nat = Failed "dial tcp: connection refused"
  /\ result (main_loop 3 "http://influxdb:8086/" "node1"
               (server_down [tesla_k80]) boot) = Panicked
  /\ samplings
       (trace (main_loop 3 "http://influxdb:8086/" "node1"
                 (server_down [tesla_k80]) boot))
     = [Exec "nvidia-smi" ["-q"; "-x"]].
Proof.
  split; [reflexivity |].
  assert (H : answered (server_down [tesla_k80]) boot 1 0) by (intros k Hk; lia).
  destruct (write_failure_crashes "http://influxdb:8086/" "node1"
              "<nvidia_smi_log/>" (report_of [tesla_k80])
              (server_down [tesla_k80]) boot 0 "dial tcp: connection refused"
              2 eq_refl eq_refl (Nat.lt_0_succ 0) H eq_refl) as (H1 & H2 & _).
  split; [exact H1 | exact H2].
Defined.

(** A write the server rejects with a status (here every request gets a
    500) is only logged: both cycles run to their sleep. *)
Example rejected_writes_go_on :
  let e := {| env_hostname := "node1";
              env_getenv := fun _ => "http://influxdb:8086/";
              env_now := fun k => 1500000000000000000 + 5000000000 * Z.of_nat k;
              env_exec := fun _ => inl "<nvidia_smi_log/>";
              env_unmarshal := fun _ => inl (report_of [tesla_k80]);
              env_http := fun _ => server_error |} in
  result (main 2 e boot) = Returned tt
  /\ List.length (samplings (trace (main 2 e boot))) = 2%nat
  /\ List.length (posts (trace (main 2 e boot))) = 2%nat
  /\ In (Log INFO "response status[500] internal error") (trace (main 2 e boot)).
Proof.
  vm_compute. repeat split.
  repeat first [left; reflexivity | right].
Qed.

(** Publishing a decoded report whose writes all get a response. *)
Lemma publish_answered (r : NvidiaSmiLog) (baseurl hostname : string)
    (ts : Z) (e : Env) (w : World) :
  answered e w 1 (List.length (GPUInfoList r)) ->
  let run := postToInfluxdb (Some r) baseurl hostname ts e w in
  result run = Returned tt
  /\ posts (trace run)
     = map (fun g => HttpPost (baseurl ++ "write?db=GPU") "plain/text"
                       (render_payload (device_points hostname ts g)))
           (GPUInfoList r)
  /\ samplings (trace run) = [].
Proof.
  intros Hans run. subst run.
  destruct (postToInfluxdb_run (Some r) baseurl hostname ts e w)
    as (pre & Hpre & _ & ->). cbv zeta.
  destruct (post_each_answered (GPUInfoList r) "" (baseurl ++ "write?db=GPU")
              hostname ts e (sent w)) as (Hr & Hp & Hs & _).
  { intros k Hk. specialize (Hans k Hk). cbn [sent requests].
    now rewrite Nat.add_0_r, <- Nat.add_1_r. }
  cbv zeta in Hr, Hp, Hs. cbn [result trace].
  split; [exact Hr | split].
  - unfold posts. cbn [filter is_post]. rewrite filter_app.
    fold (posts pre). rewrite logs_no_post by exact Hpre. exact Hp.
  - unfold samplings. cbn [filter is_exec]. rewrite filter_app.
    fold (samplings pre). rewrite logs_no_exec by exact Hpre. exact Hs.
Qed.

(** C3 (as amended): for a decoded report whose writes all get a response,
    [postToInfluxdb] returns after one write request per device, in the
    order of the report, each carrying the points of that device, one per
    line. *)
Theorem one_write_per_device (r : NvidiaSmiLog) (baseurl hostname : string)
    (ts : Z) (e : Env) (w : World) :
  answered e w 1 (List.length (GPUInfoList r)) ->
  let run := postToInfluxdb (Some r) baseurl hostname ts e w in
  result run = Returned tt
  /\ posts (trace run)
     = map (fun g => HttpPost (baseurl ++ "write?db=GPU") "plain/text"
                       (String.concat newline
                          (map render_point (device_points hostname ts g))))
           (GPUInfoList r)
  /\ List.length (posts (trace run)) = List.length (GPUInfoList r).
Proof.
  intros Hans run. subst run.
  destruct (publish_answered r baseurl hostname ts e w Hans)
    as (Hr & Hp & _).
  cbv zeta in Hr, Hp. split; [exact Hr | split; [exact Hp |]].
  rewrite Hp. apply length_map.
Qed.

Lemma one_write_per_device_witness :
  answered (healthy [tesla_k80; second_k80]) boot 1 2
  /\ List.length
       (posts (trace (postToInfluxdb (Some (report_of [tesla_k80; second_k80]))
                        "http://influxdb:8086/" "node1" 1500000000000000000
                        (healthy [tesla_k80; second_k80]) boot))) = 2%nat.
Proof.
  assert (H : answered (healthy [tesla_k80; second_k80]) boot 1 2).
  { intros k Hk. destruct k as [|[|k]]; [discriminate | discriminate | lia]. }
  split; [exact H |].
  exact (proj2 (proj2 (one_write_per_device (report_of [tesla_k80; second_k80])
                         "http://influxdb:8086/" "node1" 1500000000000000000
                         (healthy [tesla_k80; second_k80]) boot H))).
Defined.

(** C3 (as stated) fails: a report of two devices is transmitted in two
    write requests, of nine lines each. *)
Lemma single_write_counterexample :
  let run := postToInfluxdb (Some (report_of [tesla_k80; second_k80]))
               "http://influxdb:8086/" "node1" 1500000000000000000
               (healthy [tesla_k80; second_k80]) boot in
  result run = Returned tt
  /\ posts (trace run)
     = [HttpPost "http://influxdb:8086/write?db=GPU" "plain/text"
          (render_payload (device_points "node1" 1500000000000000000 tesla_k80));
        HttpPost "http://influxdb:8086/write?db=GPU" "plain/text"
          (render_payload (device_points "node1" 1500000000000000000 second_k80))]
  /\ List.length (posts (trace run)) <> 1%nat.
Proof. vm_compute. repeat split. discriminate. Qed.

(** X16: in a cycle that samples a report of N devices and whose writes all
    get a response, the payloads written are those of 9 * N points: for each
    device, in the order of the report, the nine measurements frame-buffer
    total, used, free, BAR1 total, used, free and gpu, encoder, decoder
    utilization, with the converted values, all tagged with the host name,
    the id of the device, its query-escaped product name and its minor
    number, and all stamped with the one clock reading of the cycle. *)
Theorem nine_points_per_device (addr hostname out : string) (r : NvidiaSmiLog)
    (e : Env) (w : World) :
  env_exec e (runs w) = inl out -> env_unmarshal e out = inl r ->
  answered e w 1 (List.length (GPUInfoList r)) ->
  let ts := env_now e (clock_reads w) in
  let run := cycle addr hostname e w in
  let pts := map (device_points hostname ts) (GPUInfoList r) in
  result run = Returned tt
  /\ posts (trace run)
     = map (fun ps => HttpPost (addr ++ "write?db=GPU") "plain/text"
                        (render_payload ps)) pts
  /\ List.length (List.concat pts) = (9 * List.length (GPUInfoList r))%nat
  /\ Forall2
       (fun g ps =>
          map (fun p => (measurement p, value p)) ps
          = [ ("fbmemory/total", memUsage2Int (Total (FBMemoryUsage g)));
              ("fbmemory/used", memUsage2Int (Used (FBMemoryUsage g)));
              ("fbmemory/free", memUsage2Int (Free (FBMemoryUsage g)));
              ("bar1memory/total", memUsage2Int (Total (Bar1MemoryUsage g)));
              ("bar1memory/used", memUsage2Int (Used (Bar1MemoryUsage g)));
              ("bar1memory/free", memUsage2Int (Free (Bar1MemoryUsage g)));
              ("gpu", utilization2Float (GPUUtil (Utilization g)));
              ("gpu/encoder", utilization2Float (EncoderUtil (Utilization g)));
              ("gpu/decoder", utilization2Float (DecoderUtil (Utilization g))) ]
          /\ Forall (fun p =>
                       tags p = {| tag_hostname := hostname;
                                   tag_gpuid := ID g;
                                   tag_product := url.QueryEscape (ProductName g);
                                   tag_minor := MinorNumber g |}
                       /\ timestamp p = ts) ps)
       (GPUInfoList r) pts.
Proof.
  intros Hexec Hxml Hans ts run pts. subst run pts.
  rewrite (cycle_sampled _ _ out r e w Hexec Hxml). cbv zeta. fold ts.
  destruct (publish_answered r addr hostname ts e
              {| clock_reads := S (clock_reads w); runs := S (runs w);
                 requests := requests w |} Hans) as (Hr & Hp & Hs).
  cbv zeta in Hr, Hp. rewrite Hr. cbn [result trace].
  split; [reflexivity | split; [| split]].
  - unfold posts in *. cbn [filter is_post]. rewrite filter_app, Hp.
    cbn [filter is_post]. rewrite app_nil_r, map_map. reflexivity.
  - clear. induction (GPUInfoList r) as [|g gpus IH]; [reflexivity |].
    cbn [map List.concat]. rewrite length_app, IH, device_points_length.
    cbn [List.length]. lia.
  - clear. induction (GPUInfoList r) as [|g gpus IH]; constructor; [| exact IH].
    split; [reflexivity |].
    unfold device_points. apply Forall_forall. intros p Hp'.
    apply in_map_iff in Hp'. destruct Hp' as (mv & <- & _).
    split; reflexivity.
Qed.

Lemma nine_points_per_device_witness :
  answered (healthy [tesla_k80; second_k80]) boot 1 2
  /\ result (cycle "http://influxdb:8086/" "node1"
               (healthy [tesla_k80; second_k80]) boot) = Returned tt
  /\ List.length
       (List.concat (map (device_points "node1" 1500000000000000000)
                  [tesla_k80; second_k80])) = 18%nat.
Proof.
  assert (H : answered (healthy [tesla_k80; second_k80]) boot 1 2).
  { intros k Hk. destruct k as [|[|k]]; [discriminate | discriminate | lia]. }
  split; [exact H |].
  destruct (nine_points_per_device "http://influxdb:8086/" "node1"
              "<nvidia_smi_log/>" (report_of [tesla_k80; second_k80])
              (healthy [tesla_k80; second_k80]) boot eq_refl eq_refl H)
    as (H1 & _ & H3 & _).
  split; [exact H1 | exact H3].
Defined.

(** C7: [postToInfluxdb] starts with the creation call, a GET of
    [query?q=CREATE%20DATABASE%20GPU], before any write; and when that call
    fails (no answer, an unreadable body, or a status other than 200) the
    failure is logged with the code, and the write for the first device of
    the report is made all the same. *)
Theorem create_database_before_writes (xmlinfo : option NvidiaSmiLog)
    (baseurl hostname : string) (ts : Z) (e : Env) (w : World) :
  let run := postToInfluxdb xmlinfo baseurl hostname ts e w in
  (exists rest,
     trace run = HttpGet (baseurl ++ "query?q=CREATE%20DATABASE%20GPU") :: rest)
  /\ (created (env_http e (requests w)) = false ->
      (exists code body,
         code <> 200
         /\ In (Log ERROR ("create database faild, code " ++ fmt_d code ++ ", "
                           ++ body)) (trace run))
      /\ (forall r g gpus,
            xmlinfo = Some r -> GPUInfoList r = g :: gpus ->
            In (HttpPost (baseurl ++ "write?db=GPU") "plain/text"
                  (render_payload (device_points hostname ts g)))
               (trace run))).
Proof.
  intros run. subst run.
  destruct (postToInfluxdb_run xmlinfo baseurl hostname ts e w)
    as (pre & Hpre & Hlog & ->).
  split.
  - destruct xmlinfo; eexists; reflexivity.
  - intros Hfail. destruct (Hlog Hfail) as (code & body & Hcode & Hin). split.
    + exists code, body. split; [exact Hcode |].
      destruct xmlinfo; cbn [trace]; right; [apply in_or_app; left |]; exact Hin.
    + intros r g gpus -> Hgpus. cbv zeta. cbn [trace]. rewrite Hgpus.
      destruct (post_each_first g gpus "" (baseurl ++ "write?db=GPU") hostname
                  ts e (sent w)) as [rest ->].
      rewrite fill_postbuffer_points.
      right. apply in_or_app. right. right. left. reflexivity.
Qed.

Lemma create_database_before_writes_witness :
  created (env_http (creation_refused [tesla_k80]) 0%nat) = false
  /\ In (HttpPost "http://influxdb:8086/write?db=GPU" "plain/text"
           (render_payload (device_points "node1" 1500000000000000000 tesla_k80)))
        (trace (postToInfluxdb (Some (report_of [tesla_k80]))
                  "http://influxdb:8086/" "node1" 1500000000000000000
                  (creation_refused [tesla_k80]) boot)).
Proof.
  split; [reflexivity |].
  exact (proj2 (proj2 (create_database_before_writes
                         (Some (report_of [tesla_k80])) "http://influxdb:8086/"
                         "node1" 1500000000000000000
                         (creation_refused [tesla_k80]) boot) eq_refl)
               (report_of [tesla_k80]) tesla_k80 [] eq_refl eq_refl).
Defined.

(** ** What a report contributes *)

Lemma fill_postbuffer_forget (b b' hostname : string) (ts : Z) (g : GPUInfo) :
  fill_postbuffer b hostname ts g
  = fill_postbuffer b' hostname ts (forget_memory_util_gpu g).
Proof. reflexivity. Qed.

Lemma post_each_forget (gpus : list GPUInfo) (b b' url hostname : string)
    (ts : Z) :
  post_each gpus b url hostname ts
  = post_each (map forget_memory_util_gpu gpus) b' url hostname ts.
Proof.
  revert b b'; induction gpus as [|g gpus IH]; intros b b'; [reflexivity |].
  cbn [map post_each].
  rewrite <- (fill_postbuffer_forget b b' hostname ts g).
  rewrite (IH (fill_postbuffer b hostname ts g) (fill_postbuffer b hostname ts g)).
  reflexivity.
Qed.

(** C9: two reports that are identical except for the [memory_util] fields
    of their devices give the same payloads, and the same run of
    [postToInfluxdb] altogether. *)
Theorem memory_util_unused (r1 r2 : NvidiaSmiLog) :
  forget_memory_util r1 = forget_memory_util r2 ->
  forall (baseurl hostname : string) (ts : Z),
    map (fun g => fill_postbuffer "" hostname ts g) (GPUInfoList r1)
    = map (fun g => fill_postbuffer "" hostname ts g) (GPUInfoList r2)
    /\ forall (e : Env) (w : World),
         postToInfluxdb (Some r1) baseurl hostname ts e w
         = postToInfluxdb (Some r2) baseurl hostname ts e w.
Proof.
  intros H baseurl hostname ts.
  assert (Hl : map forget_memory_util_gpu (GPUInfoList r1)
               = map forget_memory_util_gpu (GPUInfoList r2))
    by exact (f_equal GPUInfoList H).
  split.
  - transitivity (map (fun g => fill_postbuffer "" hostname ts g)
                      (map forget_memory_util_gpu (GPUInfoList r1))).
    + rewrite map_map. reflexivity.
    + rewrite Hl, map_map. reflexivity.
  - intros e w. unfold postToInfluxdb.
    rewrite (post_each_forget (GPUInfoList r1) "" ""),
            (post_each_forget (GPUInfoList r2) "" ""), Hl.
    reflexivity.
Qed.

Lemma memory_util_unused_witness :
  forget_memory_util (report_of [tesla_k80])
  = forget_memory_util (report_of [tesla_k80_busy])
  /\ report_of [tesla_k80] <> report_of [tesla_k80_busy]
  /\ postToInfluxdb (Some (report_of [tesla_k80])) "http://influxdb:8086/"
       "node1" 1500000000000000000 (healthy [tesla_k80]) boot
     = postToInfluxdb (Some (report_of [tesla_k80_busy])) "http://influxdb:8086/"
         "node1" 1500000000000000000 (healthy [tesla_k80]) boot.
Proof.
  split; [reflexivity | split; [discriminate |]].
  exact (proj2 (memory_util_unused (report_of [tesla_k80])
                  (report_of [tesla_k80_busy]) eq_refl "http://influxdb:8086/"
                  "node1" 1500000000000000000)
               (healthy [tesla_k80]) boot).
Defined.

(** C10: the conversions check no range: ["-5 MiB"] gives the negative byte
    count -5 * 1,048,576 and ["150 %"] gives 150, and a device that reports
    them gets these values in its points as they are: in the list of points,
    and in the lines posted. *)
Theorem conversions_unchecked :
  memUsage2Int "-5 MiB" = -5 * 1048576
  /\ utilization2Float "150 %" = 150
  /\ (forall b hostname ts,
        fill_postbuffer b hostname ts odd_gpu
        = render_payload (device_points hostname ts odd_gpu)
        /\ map (fun p => (measurement p, value p))
               (device_points hostname ts odd_gpu)
           = [ ("fbmemory/total", -5242880); ("fbmemory/used", 0);
               ("fbmemory/free", 0); ("bar1memory/total", 0);
               ("bar1memory/used", 0); ("bar1memory/free", 0);
               ("gpu", 150); ("gpu/encoder", 0); ("gpu/decoder", 0) ])
  /\ strings.HasPrefix
       (fill_postbuffer "" "node1" 1500000000000000000 odd_gpu)
       "fbmemory/total,hostname=node1,gpuid=0,product=Tesla+K80,minor=0 value=-5242880 1500000000000000000"
     = true
  /\ occurs
       "gpu,hostname=node1,gpuid=0,product=Tesla+K80,minor=0 value=150 1500000000000000000"
       (fill_postbuffer "" "node1" 1500000000000000000 odd_gpu)
     = true.
Proof.
  split; [reflexivity | split; [reflexivity | split; [| split]]].
  - intros b hostname ts. split; [apply fill_postbuffer_points | reflexivity].
  - vm_compute. reflexivity.
  - vm_compute. reflexivity.
Qed.

(** * Further properties *)

(** ** The conversions, on every input *)

Lemma wrap64_range (z : Z) : - 2 ^ 63 <= wrap64 z < 2 ^ 63.
Proof.
  unfold wrap64. rewrite pow2_63, pow2_64.
  pose proof (Z.mod_pos_bound (z + 9223372036854775808) 18446744073709551616
                ltac:(lia)). lia.
Qed.

(** Wrapping changes a number by a multiple of [2^64]. *)
Lemma wrap64_congr (z : Z) : exists k, wrap64 z = z + k * 2 ^ 64.
Proof.
  unfold wrap64. rewrite pow2_63, pow2_64.
  exists (- ((z + 9223372036854775808) / 18446744073709551616)).
  pose proof (Z.div_mod (z + 9223372036854775808) 18446744073709551616
                ltac:(lia)). lia.
Qed.

(** Whatever the string, [ParseInt] returns an [int64]. *)
Lemma ParseInt_range (s : string) :
  - 2 ^ 63 <= fst (strconv.ParseInt s) < 2 ^ 63.
Proof.
  unfold strconv.ParseInt. destruct s as [|c rest]; [cbn; lia |].
  destruct (strconv.ParseUint _) as [un [[|]|]]; cbn [fst];
    try (cbn; lia);
    repeat match goal with
           | |- context [if ?b then _ else _] => destruct b
           end; cbn [fst]; unfold neg64;
    first [apply wrap64_range | rewrite pow2_63; lia].
Qed.

Lemma memUsage2Int_range (s : string) :
  - 2 ^ 63 <= memUsage2Int s < 2 ^ 63.
Proof.
  unfold memUsage2Int.
  destruct (strings.HasSuffix s " MiB"); [apply wrap64_range |].
  rewrite pow2_63. lia.
Qed.

(** X12: the two conversions return an [int64] on every string, and
    [memUsage2Int] always returns a whole number of mebibytes (a multiple
    of 1,048,576), also when the product wraps. *)
Theorem conversions_fit_int64 (s : string) :
  (- 2 ^ 63 <= memUsage2Int s < 2 ^ 63)
  /\ memUsage2Int s mod 1048576 = 0
  /\ (- 2 ^ 63 <= utilization2Float s < 2 ^ 63).
Proof.
  unfold memUsage2Int, utilization2Float. split; [| split].
  - fold (memUsage2Int s). apply memUsage2Int_range.
  - destruct (strings.HasSuffix s " MiB"); [| reflexivity].
    unfold mul64.
    destruct (wrap64_congr (fst (strconv.ParseInt (strings.Replace s " MiB" ""))
                            * 1024)) as [k1 ->].
    destruct (wrap64_congr ((fst (strconv.ParseInt (strings.Replace s " MiB" ""))
                             * 1024 + k1 * 2 ^ 64) * 1024)) as [k2 ->].
    rewrite pow2_64.
    set (m := fst (strconv.ParseInt (strings.Replace s " MiB" ""))).
    replace ((m * 1024 + k1 * 18446744073709551616) * 1024
             + k2 * 18446744073709551616)
      with ((m + k1 * 18014398509481984 + k2 * 17592186044416) * 1048576)
      by lia.
    apply Z.mod_mul. lia.
  - destruct (strings.HasSuffix s " %"); [apply ParseInt_range |].
    rewrite pow2_63. lia.
Qed.

(** X13: on ["<integer> MiB"] the byte count [memUsage2Int] returns is the
    integer times 1,048,576 exactly when the integer lies between [-2^43]
    and [2^43 - 1]: beyond, the result is another number. *)
Theorem memUsage2Int_exact_iff (s : string) :
  int_literal s = true ->
  memUsage2Int (s ++ " MiB") = literal_value s * 1048576
  <-> - 2 ^ 43 <= literal_value s < 2 ^ 43.
Proof.
  intros Hlit. split.
  - intros H.
    destruct (memUsage2Int_range (s ++ " MiB")) as [Hlo Hhi].
    rewrite H, pow2_63 in *. change (2 ^ 43) with 8796093022208. lia.
  - intros Hrange. rewrite memUsage2Int_literal by exact Hlit.
    rewrite clamp64_small.
    + now apply mul64_MiB.
    + change (2 ^ 43) with 8796093022208 in Hrange. rewrite pow2_63. lia.
Qed.

Lemma memUsage2Int_exact_iff_witness :
  int_literal "16384" = true
  /\ (memUsage2Int ("16384" ++ " MiB") = literal_value "16384" * 1048576
      <-> - 2 ^ 43 <= literal_value "16384" < 2 ^ 43).
Proof.
  split; [reflexivity | exact (memUsage2Int_exact_iff "16384" eq_refl)].
Defined.

(** X14: on ["<integer> %"] the number [utilization2Float] returns is the
    integer exactly when the integer fits an [int64]. *)
Theorem utilization2Float_exact_iff (s : string) :
  int_literal s = true ->
  utilization2Float (s ++ " %") = literal_value s
  <-> - 2 ^ 63 <= literal_value s < 2 ^ 63.
Proof.
  intros Hlit. rewrite utilization2Float_literal by exact Hlit.
  unfold clamp64. rewrite pow2_63. lia.
Qed.

Lemma utilization2Float_exact_iff_witness :
  int_literal "83" = true
  /\ (utilization2Float ("83" ++ " %") = literal_value "83"
      <-> - 2 ^ 63 <= literal_value "83" < 2 ^ 63).
Proof.
  split; [reflexivity | exact (utilization2Float_exact_iff "83" eq_refl)].
Defined.

(** ** Formatting and parsing *)

Lemma string_of_uint_digits (d : Decimal.uint) :
  all_digits (NilEmpty.string_of_uint d) = true.
Proof. induction d; cbn [NilEmpty.string_of_uint all_digits]; auto. Qed.

(** The digits written for a number denote it, after any digits [acc]. *)
Lemma digits_value_of_uint_acc (d : Decimal.uint) (acc : positive) :
  digits_value (NilEmpty.string_of_uint d) (Z.pos acc)
  = Z.pos (Pos.of_uint_acc d acc).
Proof.
  revert acc; induction d; intros acc;
    cbn [NilEmpty.string_of_uint digits_value Pos.of_uint_acc];
    [reflexivity | ..];
    match goal with
    | |- digits_value _ ?a = Z.pos (Pos.of_uint_acc _ ?p) =>
        replace a with (Z.pos p) by (vm_compute byte_val; lia)
    end; apply IHd.
Qed.

Lemma digits_value_of_uint (d : Decimal.uint) :
  digits_value (NilEmpty.string_of_uint d) 0 = Z.of_uint d.
Proof.
  unfold Z.of_uint.
  induction d; cbn [NilEmpty.string_of_uint digits_value Pos.of_uint];
    [reflexivity | exact IHd | ..];
    match goal with
    | |- digits_value _ ?a = Z.of_N (N.pos (Pos.of_uint_acc _ ?p)) =>
        change a with (Z.pos p)
    end; apply digits_value_of_uint_acc.
Qed.

Lemma digit_is_no_sign (c : ascii) :
  is_digit c = true -> Ascii.eqb c "+" = false /\ Ascii.eqb c "-" = false.
Proof.
  intros H. split.
  - destruct (Ascii.eqb_spec c "+") as [-> | _]; [discriminate | reflexivity].
  - destruct (Ascii.eqb_spec c "-") as [-> | _]; [discriminate | reflexivity].
Qed.

(** A non-empty string of digits is an integer literal, without sign. *)
Lemma digits_literal (s : string) :
  s <> "" -> all_digits s = true ->
  int_literal s = true /\ literal_value s = digits_value s 0.
Proof.
  intros Hne Hd. destruct s as [|c s]; [congruence |].
  pose proof Hd as Hd'. cbn [all_digits] in Hd'.
  apply andb_true_iff in Hd'. destruct Hd' as [Hc _].
  destruct (digit_is_no_sign c Hc) as [Hp Hm].
  unfold int_literal, literal_value, unsigned_part, is_negative.
  rewrite Hp, Hm. cbn [orb]. split; [exact Hd | reflexivity].
Qed.

(** What [%d] writes is an integer literal that denotes the number. *)
Lemma fmt_d_literal (z : Z) :
  int_literal (fmt_d z) = true /\ literal_value (fmt_d z) = z.
Proof.
  unfold fmt_d. pose proof (DecimalZ.of_to z) as Hz.
  destruct z as [|p|p]; cbn [Z.to_int NilEmpty.string_of_int] in *.
  - split; reflexivity.
  - cbn [Z.of_int] in Hz. rewrite <- digits_value_of_uint in Hz.
    assert (Hne : NilEmpty.string_of_uint (Pos.to_uint p) <> "").
    { intros E. rewrite E in Hz. discriminate. }
    destruct (digits_literal _ Hne (string_of_uint_digits _)) as [H1 H2].
    split; [exact H1 | now rewrite H2].
  - cbn [Z.of_int] in Hz. rewrite <- digits_value_of_uint in Hz.
    assert (Hne : NilEmpty.string_of_uint (Pos.to_uint p) <> "").
    { intros E. rewrite E in Hz. discriminate. }
    pose proof (string_of_uint_digits (Pos.to_uint p)) as Hd.
    unfold int_literal, literal_value, unsigned_part, is_negative.
    cbn [Ascii.eqb Bool.eqb orb].
    destruct (NilEmpty.string_of_uint (Pos.to_uint p)) as [|c s];
      [congruence |].
    split; [exact Hd | exact Hz].
Qed.

(** X15: parsing what [Sprintf] writes gives the number back: for every
    [int64] n, [utilization2Float] of [n] written with [%d] and followed by
    [" %"] is [n]; and for every n between [-2^43] and [2^43 - 1],
    [memUsage2Int] of [n] written with [%d] and followed by [" MiB"] is
    [n] times 1,048,576. *)
Theorem conversions_read_fmt_d (n : Z) :
  (- 2 ^ 63 <= n < 2 ^ 63 -> utilization2Float (fmt_d n ++ " %") = n)
  /\ (- 2 ^ 43 <= n < 2 ^ 43 -> memUsage2Int (fmt_d n ++ " MiB") = n * 1048576).
Proof.
  destruct (fmt_d_literal n) as [Hlit Hval]. split; intros Hrange.
  - rewrite utilization2Float_literal, Hval by exact Hlit.
    now apply clamp64_small.
  - rewrite memUsage2Int_literal, Hval by exact Hlit.
    rewrite clamp64_small.
    + now apply mul64_MiB.
    + change (2 ^ 43) with 8796093022208 in Hrange. rewrite pow2_63. lia.
Qed.

Lemma conversions_read_fmt_d_witness :
  utilization2Float (fmt_d (-17) ++ " %") = -17
  /\ memUsage2Int (fmt_d 11519 ++ " MiB") = 11519 * 1048576.
Proof.
  split.
  - apply (proj1 (conversions_read_fmt_d (-17))). vm_compute. split; congruence.
  - apply (proj2 (conversions_read_fmt_d 11519)). vm_compute. split; congruence.
Defined.

(** ** Lines and tags *)

Lemma count_byte_append (c : ascii) (s t : string) :
  count_byte c (s ++ t) = (count_byte c s + count_byte c t)%nat.
Proof.
  induction s as [|a s IH]; [reflexivity |].
  cbn [append count_byte]. rewrite IH. lia.
Qed.

Lemma count_byte_absent (c : ascii) (s : string) :
  has_byte c s = false -> count_byte c s = 0%nat.
Proof.
  induction s as [|a s IH]; [reflexivity |]. cbn [has_byte count_byte].
  intros H. apply orb_false_iff in H. destruct H as [-> H]. now rewrite IH.
Qed.

Lemma all_bytes_absent (p : ascii -> bool) (c : ascii) (s : string) :
  all_bytes p s = true -> p c = false -> has_byte c s = false.
Proof.
  intros Hs Hc. induction s as [|a s IH]; [reflexivity |].
  cbn [all_bytes has_byte] in *. apply andb_true_iff in Hs.
  destruct Hs as [Ha Hs]. rewrite IH by exact Hs.
  destruct (Ascii.eqb_spec a c) as [-> | _]; [congruence | reflexivity].
Qed.

Lemma all_digits_bytes (s : string) : all_digits s = all_bytes is_digit s.
Proof. induction s as [|a s IH]; [reflexivity |]. cbn. now rewrite IH. Qed.

(** [%d] never writes a line feed. *)
Lemma fmt_d_one_line (z : Z) : count_byte LF (fmt_d z) = 0%nat.
Proof.
  apply count_byte_absent. unfold fmt_d.
  assert (H : forall d, has_byte LF (NilEmpty.string_of_uint d) = false).
  { intros d. apply (all_bytes_absent is_digit); [| reflexivity].
    rewrite <- all_digits_bytes. apply string_of_uint_digits. }
  destruct (Z.to_int z); cbn [NilEmpty.string_of_int has_byte];
    rewrite H; reflexivity.
Qed.

(** [QueryEscape] never writes a line feed. *)
Lemma QueryEscape_one_line (s : string) :
  count_byte LF (url.QueryEscape s) = 0%nat.
Proof.
  apply count_byte_absent.
  apply (all_bytes_absent escaped_byte); [apply QueryEscape_bytes | reflexivity].
Qed.

(** The line feeds of a rendered point are those of its measurement name,
    host name and device id. *)
Lemma render_point_lines (p : Point) :
  count_byte LF (render_point p)
  = (count_byte LF (measurement p) + count_byte LF (tag_hostname (tags p))
     + count_byte LF (tag_gpuid (tags p))
     + count_byte LF (tag_product (tags p)))%nat.
Proof.
  unfold render_point, render_tags.
  rewrite !count_byte_append, !fmt_d_one_line. cbn. lia.
Qed.

Lemma concat_lines (l : list string) :
  Forall (fun s => count_byte LF s = 0%nat) l ->
  count_byte LF (String.concat newline l) = pred (List.length l).
Proof.
  induction 1 as [|s l Hs Hl IH]; [reflexivity |].
  destruct l as [|t l]; [exact Hs |].
  change (String.concat newline (s :: t :: l))
    with (s ++ newline ++ String.concat newline (t :: l)).
  rewrite !count_byte_append, Hs, IH. reflexivity.
Qed.

(** X10: when neither the host name nor the id of the device holds a line
    feed, the payload posted for the device has exactly nine lines (eight
    line feeds, none at the end): the product name, the values and the
    timestamp cannot add one. *)
Theorem payload_has_nine_lines (b hostname : string) (ts : Z) (g : GPUInfo) :
  has_byte LF hostname = false -> has_byte LF (ID g) = false ->
  count_byte LF (fill_postbuffer b hostname ts g) = 8%nat.
Proof.
  intros Hh Hi. rewrite fill_postbuffer_points. unfold render_payload.
  rewrite concat_lines; [reflexivity |].
  apply Forall_forall. intros s Hs.
  apply in_map_iff in Hs. destruct Hs as (p & <- & Hp).
  rewrite render_point_lines.
  unfold device_points in Hp. apply in_map_iff in Hp.
  destruct Hp as (mv & <- & Hmv). cbn [measurement tags tag_hostname tag_gpuid
                                        tag_product].
  rewrite (count_byte_absent _ _ Hh), (count_byte_absent _ _ Hi),
    QueryEscape_one_line.
  unfold device_metrics in Hmv. cbn [In] in Hmv.
  repeat destruct Hmv as [<- | Hmv]; try reflexivity. contradiction.
Qed.

Lemma payload_has_nine_lines_witness :
  has_byte LF "node1" = false
  /\ count_byte LF (fill_postbuffer "" "node1" 1500000000000000000 second_k80)
     = 8%nat.
Proof.
  split; [reflexivity |].
  exact (payload_has_nine_lines "" "node1" 1500000000000000000 second_k80
           eq_refl eq_refl).
Defined.

Lemma append_inv_head (s a b : string) : s ++ a = s ++ b -> a = b.
Proof.
  induction s as [|c s IH]; cbn [append]; intros H; [exact H |].
  injection H as H. now apply IH.
Qed.

Lemma append_inv_tail (a b t : string) : a ++ t = b ++ t -> a = b.
Proof.
  revert b; induction a as [|c a IH]; intros [|d b] H; cbn [append] in H.
  - reflexivity.
  - apply (f_equal length) in H. cbn [length] in H.
    rewrite length_append in H. lia.
  - apply (f_equal length) in H. cbn [length] in H.
    rewrite length_append in H. lia.
  - injection H as -> H. f_equal. now apply IH.
Qed.

Lemma QueryEscape_injective (s t : string) :
  url.QueryEscape s = url.QueryEscape t -> s = t.
Proof.
  intros H. apply (f_equal url.QueryUnescape) in H.
  rewrite !QueryUnescape_QueryEscape in H. now injection H.
Qed.

Lemma escape_unreserved (s : string) :
  all_bytes unreserved s = true -> url.QueryEscape s = s.
Proof.
  unfold url.QueryEscape, unreserved.
  induction s as [|c s IH]; [reflexivity |]. cbn [all_bytes url.escape].
  intros H. apply andb_true_iff in H. destruct H as [Hc Hs].
  apply negb_true_iff in Hc. rewrite Hc, IH by exact Hs.
  destruct (Ascii.eqb_spec c " ") as [-> | _]; [discriminate | reflexivity].
Qed.

(** X11: the tag set tells product names apart: two devices with the same
    id and minor number on the same host get the same tag set only if
    their product names are the same; and a product name made of letters,
    digits and [-_.~] only stands in the tag set as it is. *)
Theorem tags_tell_products_apart (hostname : string) (g1 g2 : GPUInfo) :
  (ID g1 = ID g2 -> MinorNumber g1 = MinorNumber g2 ->
   tags_of hostname g1 = tags_of hostname g2 ->
   ProductName g1 = ProductName g2)
  /\ (all_bytes unreserved (ProductName g1) = true ->
      tags_of hostname g1
      = "hostname=" ++ hostname ++ ",gpuid=" ++ ID g1 ++ ",product="
        ++ ProductName g1 ++ ",minor=" ++ fmt_d (MinorNumber g1)).
Proof.
  unfold tags_of. split.
  - intros Hid Hminor H. rewrite Hid, Hminor in H.
    repeat (apply append_inv_head in H).
    apply append_inv_tail in H. now apply QueryEscape_injective.
  - intros H. now rewrite escape_unreserved.
Qed.

Lemma tags_tell_products_apart_witness :
  all_bytes unreserved (ProductName gtx_1080) = true
  /\ tags_of "node1" gtx_1080
     = "hostname=node1,gpuid=2,product=GeForce-GTX-1080,minor=2"
  /\ (tags_of "node1" tesla_k80 = tags_of "node1" tesla_k80_busy ->
      ProductName tesla_k80 = ProductName tesla_k80_busy).
Proof.
  split; [reflexivity | split].
  - exact (proj2 (tags_tell_products_apart "node1" gtx_1080 gtx_1080) eq_refl).
  - exact (proj1 (tags_tell_products_apart "node1" tesla_k80 tesla_k80_busy)
             eq_refl eq_refl).
Defined.

Lemma line_of_length (p : RawPoint) : (0 < length (line_of p))%nat.
Proof.
  destruct p as [[[m t] v] ts]. unfold line_of.
  rewrite !length_append. simpl. lia.
Qed.

Lemma concat_lines_length (l : list RawPoint) :
  l <> [] -> (0 < length (String.concat newline (map line_of l)))%nat.
Proof.
  destruct l as [|p l]; [congruence | intros _].
  pose proof (line_of_length p).
  destruct l as [|q l]; cbn [map String.concat]; [assumption |].
  rewrite length_append. lia.
Qed.

Lemma append_raw_snoc (l : list RawPoint) (p : RawPoint) :
  append_raw (String.concat newline (map line_of l)) p
  = String.concat newline (map line_of (l ++ [p])).
Proof.
  destruct p as [[[m t] v] ts]. unfold append_raw, appendPoint.
  destruct l as [|q l]; [reflexivity |].
  pose proof (concat_lines_length (q :: l) ltac:(discriminate)) as H.
  apply Nat.ltb_lt in H. rewrite H.
  rewrite map_app. cbn [map]. rewrite concat_snoc by discriminate.
  now rewrite append_assoc.
Qed.

(** X9: calling [appendPoint] for a list of points, one after the other on
    a buffer that starts empty, leaves in the buffer the lines of the
    points in order, separated by one line feed each: nothing for no point,
    no line feed before the first line and none after the last. *)
Theorem appendPoint_joins_lines (l : list RawPoint) :
  fold_left append_raw l "" = String.concat newline (map line_of l).
Proof.
  induction l as [|p l IH] using rev_ind; [reflexivity |].
  rewrite fold_left_app. cbn [fold_left]. rewrite IH.
  apply append_raw_snoc.
Qed.

(** ** Sampling, requests and crashes *)

(** X1: [getGPUInfo] runs [nvidia-smi -q -x] once and nothing else, and
    returns either a report and no error or no report and an error, never
    both and never neither; the report is the decoded output of the
    command. *)
Theorem getGPUInfo_report_or_error (e : Env) (w : World) :
  exists infos err,
    getGPUInfo e w
    = {| trace := [Exec "nvidia-smi" ["-q"; "-x"]];
         world := {| clock_reads := clock_reads w; runs := S (runs w);
                     requests := requests w |};
         result := Returned (infos, err) |}
    /\ (infos = None <-> err <> None)
    /\ (forall r, infos = Some r <->
                  exists out, env_exec e (runs w) = inl out
                              /\ env_unmarshal e out = inl r).
Proof.
  unfold getGPUInfo, exec_Output, xml_Unmarshal. run_step.
  destruct (env_exec e (runs w)) as [out | err] eqn:Hexec; cbn.
  - destruct (env_unmarshal e out) as [r | err] eqn:Hxml; cbn.
    + exists (Some r), None. split; [reflexivity | split].
      * split; [discriminate | congruence].
      * intros r'. split.
        -- intros [= <-]. now exists out.
        -- intros (out' & [= <-] & H). congruence.
    + exists None, (Some err). split; [reflexivity | split].
      * split; [discriminate | reflexivity].
      * intros r'. split; [discriminate |].
        intros (out' & [= <-] & H). congruence.
  - exists None, (Some err). split; [reflexivity | split].
    + split; [discriminate | reflexivity].
    + intros r'. split; [discriminate |]. intros (out' & H & _). discriminate.
Qed.

(** X2: [getURL] never panics and makes exactly one request, a GET of the
    URL; it returns the code 200 exactly when the server answered 200 with a
    readable body, the status and body of any other readable answer, and
    [(-1, "")] when the request failed or the body could not be read. *)
Theorem getURL_code (url : string) (e : Env) (w : World) :
  exists logs code body,
    getURL url e w
    = {| trace := HttpGet url :: logs; world := sent w;
         result := Returned (code, body) |}
    /\ forallb is_log logs = true
    /\ (code = 200 <-> created (env_http e (requests w)) = true)
    /\ (forall resp, env_http e (requests w) = Answered resp ->
                     ReadErr resp = None ->
                     code = StatusCode resp /\ body = Body resp)
    /\ ((http_err (env_http e (requests w)) <> None
         \/ exists resp, http_resp (env_http e (requests w)) = Some resp
                         /\ ReadErr resp <> None) ->
        code = -1 /\ body = "").
Proof.
  unfold getURL. run_step.
  destruct (env_http e (requests w)) as [err | resp err | resp]; cbn.
  - eexists _, (-1), "". split; [reflexivity | split; [reflexivity |]].
    repeat split; try discriminate.
  - eexists _, (-1), "". split; [reflexivity | split; [reflexivity |]].
    repeat split; try discriminate.
  - destruct resp as [status rbody [rerr|]]; cbn.
    + eexists _, (-1), "". split; [reflexivity | split; [reflexivity |]].
      split; [split; discriminate | split].
      * intros resp [= <-]. discriminate.
      * intros _. split; reflexivity.
    + eexists _, status, rbody. split; [reflexivity | split; [reflexivity |]].
      split; [| split].
      * split; [intros ->; reflexivity | apply Z.eqb_eq].
      * intros resp [= <-] _. split; reflexivity.
      * intros [H | (resp & [= <-] & H)]; cbn in H; congruence.
Qed.

(** [postURL], whatever comes back. *)
Lemma postURL_run (url body : string) (e : Env) (w : World) :
  exists logs,
    forallb is_log logs = true
    /\ postURL url body e w
       = {| trace := Log INFO ("posting: " ++ body)
                     :: HttpPost url "plain/text" body :: logs;
            world := sent w;
            result := match http_resp (env_http e (requests w)) with
                      | Some _ => Returned tt
                      | None => Panicked
                      end |}.
Proof.
  unfold postURL. run_step.
  destruct (env_http e (requests w)) as [err | resp err | resp]; cbn;
    [refine (ex_intro _ _ (conj _ eq_refl)); reflexivity | |];
    destruct (ReadErr resp); cbn;
    refine (ex_intro _ _ (conj _ eq_refl)); reflexivity.
Qed.

(** X3: [postURL] makes exactly one request, a POST of the payload as
    [plain/text], and it panics exactly when that request comes back without
    a response: a response of any status, or one whose body cannot be read,
    is logged and the function returns. *)
Theorem postURL_panics_iff (url body : string) (e : Env) (w : World) :
  (result (postURL url body e w) = Panicked
   <-> http_resp (env_http e (requests w)) = None)
  /\ posts (trace (postURL url body e w)) = [HttpPost url "plain/text" body]
  /\ world (postURL url body e w) = sent w.
Proof.
  destruct (postURL_run url body e w) as (logs & Hlogs & ->).
  cbn [result trace world]. split; [| split; [| reflexivity]].
  - destruct (http_resp (env_http e (requests w))); split; congruence.
  - unfold posts. cbn [filter is_post]. fold (posts logs).
    now rewrite logs_no_post.
Qed.

Lemma answered_cons (e : Env) (w : World) (n : nat) :
  answered e w 0 (S n)
  <-> http_resp (env_http e (requests w)) <> None /\ answered e (sent w) 0 n.
Proof.
  unfold answered. cbn [sent requests]. split.
  - intros H. split.
    + specialize (H 0%nat ltac:(lia)). now rewrite !Nat.add_0_r in H.
    + intros k Hk. specialize (H (S k) ltac:(lia)).
      rewrite Nat.add_0_r in *. now rewrite Nat.add_succ_r in H.
  - intros [H0 H] [|k] Hk.
    + now rewrite !Nat.add_0_r.
    + specialize (H k ltac:(lia)). rewrite Nat.add_0_r in *.
      now rewrite Nat.add_succ_r.
Qed.

Lemma logs_net (l : list Event) :
  forallb is_log l = true -> forallb net_event l = true.
Proof.
  intros H. apply forallb_forall. intros ev Hev.
  rewrite forallb_forall in H. unfold net_event. now rewrite (H ev Hev).
Qed.

(** The loop over the devices, whatever the server answers. *)
Lemma post_each_run (gpus : list GPUInfo) (b url hostname : string) (ts : Z)
    (e : Env) (w : World) :
  let run := post_each gpus b url hostname ts e w in
  (result run = Returned tt <-> answered e w 0 (List.length gpus))
  /\ (exists n, (n <= List.length gpus)%nat
                /\ posts (trace run)
                   = firstn n
                       (map (fun g => HttpPost url "plain/text"
                                        (render_payload
                                           (device_points hostname ts g)))
                            gpus))
  /\ forallb net_event (trace run) = true.
Proof.
  revert b w; induction gpus as [|g gpus IH]; intros b w.
  - cbn. split; [| split; [exists 0%nat; split; [lia | reflexivity] | reflexivity]].
    split; [intros _ k Hk; lia | reflexivity].
  - cbn [post_each]. unfold bind.
    destruct (postURL_run url (fill_postbuffer b hostname ts g) e w)
      as (logs & Hlogs & ->).
    cbn [result trace world List.length].
    rewrite answered_cons.
    destruct (http_resp (env_http e (requests w))) as [resp|].
    + destruct (IH (fill_postbuffer b hostname ts g) (sent w))
        as (Hr & (n & Hn & Hp) & Hnet).
      cbv zeta in Hr, Hp, Hnet. cbn [result trace]. split; [| split].
      * rewrite Hr. split; [intros H; split; [discriminate | exact H] | tauto].
      * exists (S n). split; [lia |].
        unfold posts in *. cbn [app filter is_post]. rewrite filter_app.
        fold (posts logs). rewrite logs_no_post by exact Hlogs.
        cbn [app map firstn]. now rewrite Hp, fill_postbuffer_points.
      * cbn [app forallb]. rewrite forallb_app, logs_net by exact Hlogs.
        now rewrite Hnet.
    + cbn [result trace]. split; [| split].
      * split; [discriminate | intros [H _]; congruence].
      * exists 1%nat. split; [lia |].
        unfold posts. cbn [filter is_post]. fold (posts logs).
        rewrite logs_no_post by exact Hlogs.
        cbn [map firstn]. now rewrite fill_postbuffer_points.
      * cbn [forallb]. now rewrite logs_net.
Qed.

(** Publishing a decoded report returns exactly when every write gets a
    response. *)
Lemma publish_returns_iff (r : NvidiaSmiLog) (baseurl hostname : string)
    (ts : Z) (e : Env) (w : World) :
  result (postToInfluxdb (Some r) baseurl hostname ts e w) = Returned tt
  <-> answered e w 1 (List.length (GPUInfoList r)).
Proof.
  destruct (postToInfluxdb_run (Some r) baseurl hostname ts e w)
    as (pre & _ & _ & ->).
  cbv zeta. cbn [result].
  destruct (post_each_run (GPUInfoList r) "" (baseurl ++ "write?db=GPU") hostname
              ts e (sent w)) as (Hr & _ & _).
  cbv zeta in Hr. rewrite Hr.
  unfold answered. cbn [sent requests].
  split; intros H k Hk; specialize (H k Hk);
    now rewrite ?Nat.add_0_r, ?Nat.add_1_r in *.
Qed.

(** The world publishing leaves when it returns. *)
Lemma publish_world (r : NvidiaSmiLog) (baseurl hostname : string)
    (ts : Z) (e : Env) (w : World) :
  answered e w 1 (List.length (GPUInfoList r)) ->
  world (postToInfluxdb (Some r) baseurl hostname ts e w)
  = {| clock_reads := clock_reads w; runs := runs w;
       requests := requests w + 1 + List.length (GPUInfoList r) |}.
Proof.
  intros H.
  destruct (postToInfluxdb_run (Some r) baseurl hostname ts e w)
    as (pre & _ & _ & ->).
  cbv zeta. cbn [world].
  destruct (post_each_answered (GPUInfoList r) "" (baseurl ++ "write?db=GPU")
              hostname ts e (sent w)) as (_ & _ & _ & ->).
  { intros k Hk. specialize (H k Hk). cbn [sent requests].
    now rewrite Nat.add_0_r, <- Nat.add_1_r. }
  cbn [sent clock_reads runs requests]. f_equal. lia.
Qed.

(** Publishing emits requests and log lines only. *)
Lemma publish_net (xmlinfo : option NvidiaSmiLog) (baseurl hostname : string)
    (ts : Z) (e : Env) (w : World) :
  forallb net_event (trace (postToInfluxdb xmlinfo baseurl hostname ts e w))
  = true.
Proof.
  destruct (postToInfluxdb_run xmlinfo baseurl hostname ts e w)
    as (pre & Hpre & _ & ->).
  destruct xmlinfo as [r|]; cbv zeta; cbn [trace forallb].
  - destruct (post_each_run (GPUInfoList r) "" (baseurl ++ "write?db=GPU")
                hostname ts e (sent w)) as (_ & _ & Hnet).
    cbv zeta in Hnet. rewrite forallb_app, logs_net by exact Hpre.
    now rewrite Hnet.
  - now rewrite logs_net.
Qed.

(** X4: for a decoded report of N devices, [postToInfluxdb] returns exactly
    when each of its N write requests gets a response, and it has then made
    N + 1 requests; for a nil report it always panics, after the creation
    call. *)
Theorem postToInfluxdb_returns_iff (r : NvidiaSmiLog)
    (baseurl hostname : string) (ts : Z) (e : Env) (w : World) :
  let run := postToInfluxdb (Some r) baseurl hostname ts e w in
  (result run = Returned tt <-> answered e w 1 (List.length (GPUInfoList r)))
  /\ (result run = Returned tt ->
      requests (world run) = (requests w + 1 + List.length (GPUInfoList r))%nat)
  /\ (exists rest,
        postToInfluxdb None baseurl hostname ts e w
        = {| trace := HttpGet (baseurl ++ "query?q=CREATE%20DATABASE%20GPU")
                      :: rest;
             world := sent w;
             result := Panicked |}).
Proof.
  intros run. subst run. split; [| split].
  - apply publish_returns_iff.
  - intros H. apply publish_returns_iff in H.
    now rewrite publish_world by exact H.
  - destruct (postToInfluxdb_run None baseurl hostname ts e w)
      as (pre & _ & _ & ->). now exists pre.
Qed.

(** X5: whatever the server answers, the write requests of [postToInfluxdb]
    are the payloads of the first devices of the report, in the order of the
    report, each posted once to [write?db=GPU]; and publishing runs no
    command and never sleeps: its events are requests and log lines. *)
Theorem writes_follow_report (xmlinfo : option NvidiaSmiLog)
    (baseurl hostname : string) (ts : Z) (e : Env) (w : World) :
  let run := postToInfluxdb xmlinfo baseurl hostname ts e w in
  (exists n,
     posts (trace run)
     = firstn n (map (write_of baseurl hostname ts)
                   (match xmlinfo with
                    | Some r => GPUInfoList r
                    | None => []
                    end)))
  /\ forallb net_event (trace run) = true.
Proof.
  intros run. subst run.
  destruct (postToInfluxdb_run xmlinfo baseurl hostname ts e w)
    as (pre & Hpre & _ & ->).
  destruct xmlinfo as [r|]; cbv zeta; cbn [trace].
  - destruct (post_each_run (GPUInfoList r) "" (baseurl ++ "write?db=GPU")
                hostname ts e (sent w)) as (_ & (n & _ & Hp) & Hnet).
    cbv zeta in Hp, Hnet. split.
    + exists n. unfold posts in *. cbn [filter is_post]. rewrite filter_app.
      fold (posts pre). rewrite logs_no_post by exact Hpre. exact Hp.
    + cbn [forallb]. rewrite forallb_app, logs_net by exact Hpre.
      now rewrite Hnet.
  - split.
    + exists 0%nat. unfold posts. cbn [filter is_post]. fold (posts pre).
      now rewrite logs_no_post.
    + cbn [forallb]. now rewrite logs_net.
Qed.

(** ** Cycles and the loop *)

Lemma net_no_sampling_no_sleep (t : list Event) :
  forallb net_event t = true -> samplings t = [] /\ sleeps t = [].
Proof.
  induction t as [|ev t IH]; [split; reflexivity |]. cbn [forallb].
  intros H. apply andb_true_iff in H. destruct H as [Hev Ht].
  destruct (IH Ht) as [H1 H2]. unfold samplings, sleeps in *.
  destruct ev; try discriminate; cbn; split; assumption.
Qed.

(** A cycle that samples a report and whose writes all get a response. *)
Lemma cycle_returned (addr hostname out : string) (r : NvidiaSmiLog)
    (e : Env) (w : World) :
  env_exec e (runs w) = inl out -> env_unmarshal e out = inl r ->
  answered e w 1 (List.length (GPUInfoList r)) ->
  let run := cycle addr hostname e w in
  result run = Returned tt
  /\ samplings (trace run) = [Exec "nvidia-smi" ["-q"; "-x"]]
  /\ sleeps (trace run) = [Sleep 5]
  /\ posts (trace run)
     = map (write_of addr hostname (env_now e (clock_reads w))) (GPUInfoList r)
  /\ world run = after_cycle w (List.length (GPUInfoList r)).
Proof.
  intros Hexec Hxml Hans run. subst run.
  rewrite (cycle_sampled _ _ out r e w Hexec Hxml). cbv zeta.
  set (w1 := {| clock_reads := S (clock_reads w); runs := S (runs w);
                requests := requests w |}).
  assert (Hans1 : answered e w1 1 (List.length (GPUInfoList r))) by exact Hans.
  destruct (publish_answered r addr hostname (env_now e (clock_reads w)) e w1
              Hans1) as (Hr & Hp & Hs).
  cbv zeta in Hr, Hp, Hs.
  destruct (net_no_sampling_no_sleep _
              (publish_net (Some r) addr hostname (env_now e (clock_reads w))
                 e w1)) as [_ Hsl].
  rewrite Hr, (publish_world r addr hostname _ e w1 Hans1).
  cbn [result trace world]. repeat split.
  - unfold samplings in *. cbn [filter is_exec]. rewrite filter_app, Hs.
    reflexivity.
  - unfold sleeps in *. cbn [filter is_sleep]. rewrite filter_app, Hsl.
    reflexivity.
  - unfold posts in *. cbn [filter is_post]. rewrite filter_app, Hp.
    cbn [filter is_post]. now rewrite app_nil_r.
Qed.

(** X6: a cycle runs to its sleep exactly when [getGPUInfo] gave a report
    and each write request of that report got a response; in every other
    case the process panics in that cycle. *)
Theorem cycle_returns_iff (addr hostname : string) (e : Env) (w : World) :
  (result (cycle addr hostname e w) = Returned tt
   <-> exists out r,
         env_exec e (runs w) = inl out /\ env_unmarshal e out = inl r
         /\ answered e w 1 (List.length (GPUInfoList r)))
  /\ (result (cycle addr hostname e w) = Panicked
      <-> ~ exists out r,
            env_exec e (runs w) = inl out /\ env_unmarshal e out = inl r
            /\ answered e w 1 (List.length (GPUInfoList r))).
Proof.
  assert (H : result (cycle addr hostname e w) = Returned tt
              <-> exists out r,
                    env_exec e (runs w) = inl out /\ env_unmarshal e out = inl r
                    /\ answered e w 1 (List.length (GPUInfoList r))).
  { destruct (env_exec e (runs w)) as [out | err] eqn:Hexec.
    - destruct (env_unmarshal e out) as [r | err] eqn:Hxml.
      + rewrite (cycle_sampled _ _ out r e w Hexec Hxml). cbv zeta.
        cbn [result]. rewrite publish_returns_iff. split.
        * intros H. now exists out, r.
        * intros (out' & r' & [= <-] & Hx & H). rewrite Hxml in Hx.
          injection Hx as <-. exact H.
      + destruct (cycle_not_sampled addr hostname err e w) as (pre & _ & ->).
        { right. now exists out. }
        cbn [result]. split; [discriminate |].
        intros (out' & r' & [= <-] & Hx & _). congruence.
    - destruct (cycle_not_sampled addr hostname err e w (or_introl Hexec))
        as (pre & _ & ->).
      cbn [result]. split; [discriminate |].
      intros (out' & r' & Hx & _). discriminate. }
  split; [exact H |].
  destruct (result (cycle addr hostname e w)) as [[]|]; split.
  - discriminate.
  - intros Hn. exfalso. apply Hn, H. reflexivity.
  - intros _ Hex. apply H in Hex. discriminate.
  - reflexivity.
Qed.

(** A cycle that returns is followed by the rest of the loop. *)
Lemma main_loop_step (n : nat) (addr hostname : string) (e : Env) (w : World) :
  result (cycle addr hostname e w) = Returned tt ->
  main_loop (S n) addr hostname e w
  = {| trace := trace (cycle addr hostname e w)
                ++ trace (main_loop n addr hostname e
                            (world (cycle addr hostname e w)));
       world := world (main_loop n addr hostname e
                         (world (cycle addr hostname e w)));
       result := result (main_loop n addr hostname e
                           (world (cycle addr hostname e w))) |}.
Proof. intros H. cbn [main_loop]. unfold bind. now rewrite H. Qed.

(** X7: as long as every sampling gives a report and every request gets a
    response (of whatever status, with a readable body or not), the loop
    goes on: after any number n of cycles the process is still running, and
    it has sampled n times, read the clock n times and slept n times. *)
Theorem loop_goes_on (n : nat) (addr hostname : string) (e : Env) (w : World) :
  (forall k, exists out r, env_exec e k = inl out /\ env_unmarshal e out = inl r) ->
  (forall k, http_resp (env_http e k) <> None) ->
  let run := main_loop n addr hostname e w in
  result run = Returned tt
  /\ List.length (samplings (trace run)) = n
  /\ List.length (sleeps (trace run)) = n
  /\ clock_reads (world run) = (clock_reads w + n)%nat
  /\ runs (world run) = (runs w + n)%nat.
Proof.
  intros Hsample Hhttp. revert w; induction n as [|n IH]; intros w.
  - cbn. repeat split; lia.
  - destruct (Hsample (runs w)) as (out & r & Hexec & Hxml).
    destruct (cycle_returned addr hostname out r e w Hexec Hxml)
      as (Hr & Hs & Hsl & _ & Hw).
    { intros k _. apply Hhttp. }
    cbv zeta in Hr, Hs, Hsl, Hw. cbv zeta.
    rewrite (main_loop_step n addr hostname e w Hr). cbn [result trace world].
    rewrite Hw.
    destruct (IH (after_cycle w (List.length (GPUInfoList r))))
      as (IHr & IHs & IHsl & IHc & IHrun).
    cbv zeta in IHr, IHs, IHsl, IHc, IHrun.
    unfold samplings, sleeps in *. rewrite !filter_app, !length_app.
    rewrite Hs, Hsl, IHs, IHsl, IHc, IHrun. cbn. repeat split; try lia.
    exact IHr.
Qed.

Lemma loop_goes_on_witness :
  (forall k, http_resp (env_http (always_rejected [tesla_k80]) k) <> None)
  /\ result (main_loop 4 "http://influxdb:8086/" "node1"
               (always_rejected [tesla_k80]) boot) = Returned tt
  /\ List.length
       (sleeps (trace (main_loop 4 "http://influxdb:8086/" "node1"
                         (always_rejected [tesla_k80]) boot))) = 4%nat.
Proof.
  assert (H1 : forall k, exists out r,
               env_exec (always_rejected [tesla_k80]) k = inl out
               /\ env_unmarshal (always_rejected [tesla_k80]) out = inl r).
  { intros k. eexists _, _. split; reflexivity. }
  assert (H2 : forall k,
               http_resp (env_http (always_rejected [tesla_k80]) k) <> None).
  { intros k. discriminate. }
  split; [exact H2 |].
  destruct (loop_goes_on 4 "http://influxdb:8086/" "node1"
              (always_rejected [tesla_k80]) boot H1 H2) as (Hr & _ & Hsl & _).
  split; [exact Hr | exact Hsl].
Defined.

(** X8: on a host whose reports never hold a device, the server cannot stop
    the process: whatever the requests come back with, also nothing at all,
    after any number n of cycles the process is still running, has made no
    write request, one creation call per cycle, and has slept n times. *)
Theorem idle_host_goes_on (n : nat) (addr hostname : string) (e : Env)
    (w : World) :
  (forall k, exists out r,
      env_exec e k = inl out /\ env_unmarshal e out = inl r
      /\ GPUInfoList r = []) ->
  let run := main_loop n addr hostname e w in
  result run = Returned tt
  /\ posts (trace run) = []
  /\ List.length (sleeps (trace run)) = n
  /\ requests (world run) = (requests w + n)%nat.
Proof.
  intros Hidle. revert w; induction n as [|n IH]; intros w.
  - cbn. repeat split; lia.
  - destruct (Hidle (runs w)) as (out & r & Hexec & Hxml & Hnil).
    destruct (cycle_returned addr hostname out r e w Hexec Hxml)
      as (Hr & _ & Hsl & Hp & Hw).
    { rewrite Hnil. intros k Hk. cbn in Hk. lia. }
    cbv zeta in Hr, Hsl, Hp, Hw. cbv zeta.
    rewrite (main_loop_step n addr hostname e w Hr). cbn [result trace world].
    rewrite Hw, Hnil in *. cbn [map List.length] in *.
    destruct (IH (after_cycle w 0)) as (IHr & IHp & IHsl & IHreq).
    cbv zeta in IHr, IHp, IHsl, IHreq.
    unfold posts, sleeps in *. rewrite !filter_app, !length_app.
    rewrite Hp, Hsl, IHp, IHsl, IHreq. cbn. repeat split; try lia.
    exact IHr.
Qed.

Lemma idle_host_goes_on_witness :
  env_http (server_down []) 0%nat = Failed "dial tcp: connection refused"
  /\ result (main_loop 4 "http://influxdb:8086/" "node1" (server_down []) boot)
     = Returned tt
  /\ posts (trace (main_loop 4 "http://influxdb:8086/" "node1" (server_down [])
                     boot)) = [].
Proof.
  split; [reflexivity |].
  assert (H : forall k, exists out r,
              env_exec (server_down []) k = inl out
              /\ env_unmarshal (server_down []) out = inl r
              /\ GPUInfoList r = []).
  { intros k. eexists _, _. repeat split. }
  destruct (idle_host_goes_on 4 "http://influxdb:8086/" "node1"
              (server_down []) boot H) as (Hr & Hp & _).
  split; [exact Hr | exact Hp].
Defined.

(** ** Points of a cycle that a failed write cuts short *)

Lemma points_of_first_devices (m : nat) (hostname : string) (ts : Z)
    (gpus : list GPUInfo) :
  List.length (List.concat (firstn m (map (device_points hostname ts) gpus)))
  = (9 * Nat.min m (List.length gpus))%nat.
Proof.
  revert m; induction gpus as [|g gpus IH]; intros [|m]; try reflexivity.
  cbn [map firstn List.concat List.length Nat.min].
  rewrite length_app, IH, device_points_length. lia.
Qed.

(** C4 (the code departs from it): when, in a cycle that sampled a report
    of N devices, the write for device number [k] is the first to fail
    without a response, the cycle panics there: the points generated and
    posted are those of the first [k + 1] devices only, 9 * (k + 1) points,
    fewer than 9 * N whenever devices are left. *)
Theorem points_lost_on_write_failure (addr hostname out : string)
    (r : NvidiaSmiLog) (e : Env) (w : World) (k : nat) (err : error) :
  env_exec e (runs w) = inl out -> env_unmarshal e out = inl r ->
  (k < List.length (GPUInfoList r))%nat ->
  answered e w 1 k ->
  env_http e (requests w + 1 + k) = Failed err ->
  let ts := env_now e (clock_reads w) in
  let run := cycle addr hostname e w in
  let pts := firstn (S k) (map (device_points hostname ts) (GPUInfoList r)) in
  result run = Panicked
  /\ posts (trace run)
     = map (fun ps => HttpPost (addr ++ "write?db=GPU") "plain/text"
                        (render_payload ps)) pts
  /\ List.length (List.concat pts) = (9 * S k)%nat
  /\ ((S k < List.length (GPUInfoList r))%nat ->
      (List.length (List.concat pts) < 9 * List.length (GPUInfoList r))%nat).
Proof.
  intros Hexec Hxml Hk Hans Hfail ts run pts. subst run pts.
  rewrite (cycle_sampled _ _ out r e w Hexec Hxml). cbv zeta. fold ts.
  set (w1 := {| clock_reads := S (clock_reads w); runs := S (runs w);
                requests := requests w |}).
  destruct (postToInfluxdb_run (Some r) addr hostname ts e w1)
    as (pre & Hpre & _ & ->).
  cbv zeta. cbn [result trace].
  destruct (post_each_fails_at k (GPUInfoList r) "" (addr ++ "write?db=GPU")
              hostname ts e (sent w1) err Hk) as (Hr & _ & Hlen & _ & _).
  { intros j Hj. specialize (Hans j Hj). cbn [sent requests w1].
    now rewrite Nat.add_0_r, <- Nat.add_1_r. }
  { cbn [sent requests w1]. now rewrite <- Nat.add_1_r. }
  destruct (post_each_run (GPUInfoList r) "" (addr ++ "write?db=GPU") hostname
              ts e (sent w1)) as (_ & (n & Hn & Hp) & _).
  cbv zeta in Hr, Hlen, Hp. rewrite Hr.
  assert (En : n = S k).
  { rewrite Hp, length_firstn, length_map in Hlen. lia. }
  subst n. rewrite points_of_first_devices.
  split; [reflexivity | split; [| split]].
  - rewrite app_nil_r. unfold posts in *. cbn [filter is_post].
    rewrite filter_app. fold (posts pre). rewrite logs_no_post by exact Hpre.
    cbn [app]. rewrite Hp, <- firstn_map, map_map. reflexivity.
  - rewrite Nat.min_l by lia. reflexivity.
  - intros Hleft. rewrite Nat.min_l by lia. lia.
Qed.

Lemma points_lost_on_write_failure_witness :
  env_http (server_down [tesla_k80; second_k80]) 1%nat
  = Failed "dial tcp: connection refused"
  /\ result (cycle "http://influxdb:8086/" "node1"
               (server_down [tesla_k80; second_k80]) boot) = Panicked
  /\ List.length
       (posts (trace (cycle "http://influxdb:8086/" "node1"
                        (server_down [tesla_k80; second_k80]) boot))) = 1%nat
  /\ (List.length
        (List.concat
           (firstn 1 (map (device_points "node1" 1500000000000000000)
                        [tesla_k80; second_k80]))) < 9 * 2)%nat.
Proof.
  split; [reflexivity |].
  assert (H : answered (server_down [tesla_k80; second_k80]) boot 1 0)
    by (intros k Hk; lia).
  destruct (points_lost_on_write_failure "http://influxdb:8086/" "node1"
              "<nvidia_smi_log/>" (report_of [tesla_k80; second_k80])
              (server_down [tesla_k80; second_k80]) boot 0
              "dial tcp: connection refused" eq_refl eq_refl
              (Nat.lt_0_succ 1) H eq_refl) as (H1 & H2 & _ & H4).
  split; [exact H1 | split].
  - rewrite H2. reflexivity.
  - apply H4. cbn. lia.
Defined.
